(** * h5-kit: the back-navigation registry of [src/back-handler.ts]

    A shallow embedding of the [BackHandler] plugin object and of the
    [useBackHandler] composable, followed by the properties of the
    specification.

    Conventions of the embedding.
    - JavaScript objects live in a heap and are named by references; two
      references are the same object exactly when they are equal, which is
      the identity that [Array.prototype.indexOf] compares.
    - A reference bound to no object stands for a falsy value ([undefined]):
      reading a property of it throws [TypeError], and the guard
      [entry && ...] of the listener skips it.
    - Functions supplied by the caller that return nothing (handlers,
      observers, the default back action, the platform registration) are
      external collaborators: they are opaque names, and calling one is
      recorded in the world's [log]; a call does not re-enter the registry.
    - Functions that return a boolean (conditions, getters) read the
      reactive store and are embedded as functions of it. *)

From stdpp Require Import base option numbers list gmap.

(** ** Data model *)

(** References to entry objects, names of external callbacks, reactive
    cells and application instances are natural numbers. *)
Abbreviation EntryRef := nat (only parsing).
Abbreviation Callback := nat (only parsing).
Abbreviation Loc := nat (only parsing).
Abbreviation App := nat (only parsing).

(** The reactive store: the current value of every boolean cell. *)
Abbreviation Store := (nat → bool) (only parsing).

(** [interface BackHandlerHistoryEntry]: [condition] is optional. *)
Record BackHandlerHistoryEntry := {
  condition : option (Store → bool);
  handler : Callback
}.

(** [interface BackHandlerOptions]: the two observers are optional. *)
Record BackHandlerOptions := {
  onHistoryAdded : option Callback;
  onHistoryRemoved : option Callback;
  defaultBackAction : Callback;
  registerPlatformBackListener : Callback
}.

(** Calls to external collaborators, in the order they happen.  The listener
    handed to the platform is the closure [backHandler], which is determined
    by the [options] it captured. *)
Inductive Event :=
  | CallOnHistoryAdded (f : Callback) (entry : EntryRef)
  | CallOnHistoryRemoved (f : Callback) (entry : EntryRef)
  | CallDefaultBackAction (f : Callback)
  | CallRegisterPlatformBackListener (f : Callback) (listener : BackHandlerOptions)
  | CallCondition (entry : EntryRef) (result : bool)
  | CallHandler (entry : EntryRef) (f : Callback).

(** The functions that the slots [addHistory] and [removeHistory] of the
    plugin object hold: [noop] from [./utils], or one of the two closures
    that [install] creates, each capturing the [options] of that call. *)
Inductive HistoryFn :=
  | Noop
  | AddHistoryFn (options : BackHandlerOptions)
  | RemoveHistoryFn (options : BackHandlerOptions).

(** The plugin object [BackHandler] (lines 35-51). *)
Record BackHandlerObject := {
  installed : bool;
  history : list EntryRef;
  addHistory : HistoryFn;
  removeHistory : HistoryFn
}.

(** [MaybeRefOrGetter<boolean>] of Vue: a plain boolean, a ref or a getter. *)
Inductive MaybeRefOrGetter :=
  | Plain (b : bool)
  | Ref (l : Loc)
  | Getter (g : Store → bool).

(** The closure state of one call of [useBackHandler]: its three arguments
    and the local variable [historyEntry] (line 118). *)
Record UseBackHandler := {
  showing : MaybeRefOrGetter;
  onHide : Callback;
  autoHideOnRouteChange : MaybeRefOrGetter;
  historyEntry : option EntryRef
}.

(** Everything a program using the module can observe or change. *)
Record World := {
  BackHandler : BackHandlerObject;
  heap : gmap nat BackHandlerHistoryEntry;
  store : Store;
  cleanups : list App;
  bindings : list UseBackHandler;
  log : list Event
}.

Inductive Error := TypeError.

(** How a call ends: it returns, or it throws; either way it leaves a world. *)
Inductive Result :=
  | Returned (w : World)
  | Threw (err : Error) (w : World).

Definition world_of (r : Result) : World :=
  match r with
  | Returned w => w
  | Threw _ w => w
  end.

(** ** Field updates *)

Definition set_BackHandler (self : BackHandlerObject) (w : World) : World :=
  {| BackHandler := self; heap := heap w; store := store w;
     cleanups := cleanups w; bindings := bindings w; log := log w |}.

Definition set_history (h : list EntryRef) (w : World) : World :=
  set_BackHandler
    {| installed := installed (BackHandler w); history := h;
       addHistory := addHistory (BackHandler w);
       removeHistory := removeHistory (BackHandler w) |} w.

Definition set_heap (h : gmap nat BackHandlerHistoryEntry) (w : World) : World :=
  {| BackHandler := BackHandler w; heap := h; store := store w;
     cleanups := cleanups w; bindings := bindings w; log := log w |}.

Definition set_store (s : Store) (w : World) : World :=
  {| BackHandler := BackHandler w; heap := heap w; store := s;
     cleanups := cleanups w; bindings := bindings w; log := log w |}.

Definition set_cleanups (c : list App) (w : World) : World :=
  {| BackHandler := BackHandler w; heap := heap w; store := store w;
     cleanups := c; bindings := bindings w; log := log w |}.

Definition set_bindings (b : list UseBackHandler) (w : World) : World :=
  {| BackHandler := BackHandler w; heap := heap w; store := store w;
     cleanups := cleanups w; bindings := b; log := log w |}.

(** An external call: the event is appended to the log. *)
Definition emit (ev : Event) (w : World) : World :=
  {| BackHandler := BackHandler w; heap := heap w; store := store w;
     cleanups := cleanups w; bindings := bindings w; log := log w ++ [ev] |}.

(** [f?.(entry)]: the call happens only when the observer is configured. *)
Definition emit_opt (f : option Callback) (ev : Callback → Event) (w : World) : World :=
  match f with
  | Some g => emit (ev g) w
  | None => w
  end.

(** ** The helpers of [./utils] and of Vue *)

(** Modelled from the spec: [noop] of [./utils], which is not under src/.
    The spec calls the initial values of the two slots no-ops: the call
    returns and changes nothing. *)
Definition noop (w : World) : Result := Returned w.

(** Modelled from the spec: [getTrue] of [./utils], which is not under src/.
    The spec calls the default condition "constant true". *)
Definition getTrue : Store → bool := λ _, true.

(** [toValue] of Vue: a getter is called, a ref is read, a plain value is
    returned as it is. *)
Definition toValue (st : Store) (m : MaybeRefOrGetter) : bool :=
  match m with
  | Plain b => b
  | Ref l => st l
  | Getter g => g st
  end.

(** ** Arrays *)

(** [Array.prototype.indexOf]: the first index holding [x], or [-1]. *)
Fixpoint indexOf_from (l : list EntryRef) (x : EntryRef) (i : Z) : Z :=
  match l with
  | [] => (-1)%Z
  | y :: l' => if decide (y = x) then i else indexOf_from l' x (i + 1)%Z
  end.

Definition indexOf (l : list EntryRef) (x : EntryRef) : Z := indexOf_from l x 0.

(** [Array.prototype.splice(start, deleteCount)] with no inserted items. *)
Definition splice (start deleteCount : nat) (l : list EntryRef) : list EntryRef :=
  take start l ++ drop (start + deleteCount) l.

(** [Array.prototype.pop]: drops the last element, if there is one. *)
Definition pop (l : list EntryRef) : list EntryRef := take (length l - 1) l.

(** ** The registry (lines 55-99) *)

(** The closure assigned to [self.addHistory] (lines 63-67). *)
Definition addHistory_impl (options : BackHandlerOptions) (entry : EntryRef)
    (w : World) : Result :=
  match heap w !! entry with
  | None => Threw TypeError w
  | Some obj =>
      (* entry.condition ??= getTrue *)
      let w1 :=
        match condition obj with
        | None =>
            set_heap (<[entry := {| condition := Some getTrue;
                                    handler := handler obj |}]> (heap w)) w
        | Some _ => w
        end in
      (* self.history.push(entry) *)
      let w2 := set_history (history (BackHandler w1) ++ [entry]) w1 in
      (* options.onHistoryAdded?.(entry) *)
      Returned (emit_opt (onHistoryAdded options)
                  (λ f, CallOnHistoryAdded f entry) w2)
  end.

(** The closure assigned to [self.removeHistory] (lines 69-75). *)
Definition removeHistory_impl (options : BackHandlerOptions) (entry : EntryRef)
    (w : World) : Result :=
  let index := indexOf (history (BackHandler w)) entry in
  if (index >? -1)%Z then
    let w1 := set_history (splice (Z.to_nat index) 1 (history (BackHandler w))) w in
    Returned (emit_opt (onHistoryRemoved options)
                (λ f, CallOnHistoryRemoved f entry) w1)
  else Returned w.

(** Calling a function held by a slot with one entry. *)
Definition call (fn : HistoryFn) (entry : EntryRef) (w : World) : Result :=
  match fn with
  | Noop => noop w
  | AddHistoryFn options => addHistory_impl options entry w
  | RemoveHistoryFn options => removeHistory_impl options entry w
  end.

(** [BackHandler.addHistory(entry)] and [BackHandler.removeHistory(entry)]:
    whatever the slot holds at the time of the call is called. *)
Definition BackHandler_addHistory (entry : EntryRef) (w : World) : Result :=
  call (addHistory (BackHandler w)) entry w.

Definition BackHandler_removeHistory (entry : EntryRef) (w : World) : Result :=
  call (removeHistory (BackHandler w)) entry w.

(** The callback given to [app.onUnmount] (lines 77-83). *)
Definition teardown (w : World) : World :=
  set_BackHandler
    {| installed := false; history := []; addHistory := Noop;
       removeHistory := Noop |} w.

(** The listener [backHandler] (lines 85-96), for the captured [options]. *)
Definition backHandler (options : BackHandlerOptions) (w : World) : Result :=
  let h := history (BackHandler w) in
  if negb (length h =? 0) then
    match h !! (length h - 1) with
    | None => Returned w
    | Some entry =>
        match heap w !! entry with
        | None => Returned w
        | Some obj =>
            match condition obj with
            | None => Threw TypeError w
            | Some c =>
                let r := c (store w) in
                let w1 := emit (CallCondition entry r) w in
                if r then
                  (* self.history.pop(); entry.handler() *)
                  let w2 := set_history (pop (history (BackHandler w1))) w1 in
                  Returned (emit (CallHandler entry (handler obj)) w2)
                else Returned w1
            end
        end
    end
  else Returned (emit (CallDefaultBackAction (defaultBackAction options)) w).

Section Install.

(** [isBrowser] of [./utils] is a constant of the runtime; the file that
    defines it is not under src/, so it is a parameter here. *)
Variable isBrowser : bool.

(** [BackHandler.install(app, options)] (lines 55-99). *)
Definition install (app : App) (options : BackHandlerOptions) (w : World) : World :=
  if installed (BackHandler w) || negb isBrowser then w
  else
    let w1 :=
      set_BackHandler
        {| installed := true; history := history (BackHandler w);
           addHistory := AddHistoryFn options;
           removeHistory := RemoveHistoryFn options |} w in
    (* app.onUnmount(...) *)
    let w2 := set_cleanups (cleanups w1 ++ [app]) w1 in
    (* options.registerPlatformBackListener(backHandler) *)
    emit (CallRegisterPlatformBackListener
            (registerPlatformBackListener options) options) w2.

End Install.

(** [app.unmount()] of Vue runs every cleanup that was registered on [app]. *)
Definition unmount (app : App) (w : World) : World :=
  foldl (λ w' a, if decide (a = app) then teardown w' else w') w (cleanups w).

(** ** The composable [useBackHandler] (lines 113-140) *)

Definition useBackHandler (showing : MaybeRefOrGetter) (onHide : Callback)
    (autoHideOnRouteChange : MaybeRefOrGetter) : UseBackHandler :=
  {| showing := showing; onHide := onHide;
     autoHideOnRouteChange := autoHideOnRouteChange; historyEntry := None |}.

Definition set_historyEntry (e : option EntryRef) (b : UseBackHandler) : UseBackHandler :=
  {| showing := showing b; onHide := onHide b;
     autoHideOnRouteChange := autoHideOnRouteChange b; historyEntry := e |}.

(** [removeFromHistory] (lines 119-124). *)
Definition removeFromHistory (b : UseBackHandler) (w : World) : UseBackHandler * Result :=
  match historyEntry b with
  | Some entry =>
      match BackHandler_removeHistory entry w with
      | Returned w1 => (set_historyEntry None b, Returned w1)
      | Threw err w1 => (b, Threw err w1)
      end
  | None => (b, Returned w)
  end.

(** The callback given to [onScopeDispose] (lines 126-128). *)
Definition onScopeDispose (b : UseBackHandler) (w : World) : UseBackHandler * Result :=
  if toValue (store w) (showing b) then removeFromHistory b w
  else (b, Returned w).

(** The object literal of line 133: a new object with the two fields. *)
Definition new_entry (obj : BackHandlerHistoryEntry) (w : World) : EntryRef * World :=
  let r := fresh (dom (heap w)) in
  (r, set_heap (<[r := obj]> (heap w)) w).

(** [addToHistory] (lines 132-138). *)
Definition addToHistory (b : UseBackHandler) (w : World) : UseBackHandler * Result :=
  let '(entry, w1) :=
    new_entry {| condition := Some (λ st, toValue st (autoHideOnRouteChange b));
                 handler := onHide b |} w in
  (set_historyEntry (Some entry) b, BackHandler_addHistory entry w1).

(** ** Programs over the module *)

(** What the host framework, the platform and the components can do:
    - [NewEntry obj]: a caller builds an entry object (an object literal);
    - [SetRef l b]: a reactive cell is assigned;
    - [Install app options], [Unmount app]: the host framework installs the
      plugin on an application, or unmounts the application;
    - [AddHistory entry], [RemoveHistory entry]: calls of the two methods of
      the plugin object;
    - [Back k]: the platform invokes the listener it received at the [k]-th
      registration;
    - [Use s h a]: a component calls [useBackHandler];
    - [AddToHistory k], [RemoveFromHistory k], [Dispose k]: the [k]-th
      component calls one of its two operations, or its scope is disposed. *)
Inductive Op :=
  | NewEntry (obj : BackHandlerHistoryEntry)
  | SetRef (l : Loc) (b : bool)
  | Install (app : App) (options : BackHandlerOptions)
  | Unmount (app : App)
  | AddHistory (entry : EntryRef)
  | RemoveHistory (entry : EntryRef)
  | Back (k : nat)
  | Use (showing : MaybeRefOrGetter) (onHide : Callback)
        (autoHideOnRouteChange : MaybeRefOrGetter)
  | AddToHistory (k : nat)
  | RemoveFromHistory (k : nat)
  | Dispose (k : nat).

(** The listeners the platform has received, oldest first. *)
Definition listeners (l : list Event) : list BackHandlerOptions :=
  omap (λ ev, match ev with
              | CallRegisterPlatformBackListener _ o => Some o
              | _ => None
              end) l.

(** A method of the [k]-th binding is called and its closure state kept. *)
Definition on_binding (k : nat)
    (m : UseBackHandler → World → UseBackHandler * Result) (w : World) : Result :=
  match bindings w !! k with
  | None => Returned w
  | Some b =>
      match m b w with
      | (b', Returned w') => Returned (set_bindings (<[k := b']> (bindings w')) w')
      | (b', Threw err w') => Threw err (set_bindings (<[k := b']> (bindings w')) w')
      end
  end.

(** The module as loaded: nothing installed, nothing allocated. *)
Definition init : World :=
  {| BackHandler := {| installed := false; history := []; addHistory := Noop;
                       removeHistory := Noop |};
     heap := ∅; store := λ _, false; cleanups := []; bindings := []; log := [] |}.

Section Programs.

Variable isBrowser : bool.

Definition exec (op : Op) (w : World) : Result :=
  match op with
  | NewEntry obj => Returned (new_entry obj w).2
  | SetRef l b =>
      Returned (set_store (λ l', if decide (l' = l) then b else store w l') w)
  | Install app options => Returned (install isBrowser app options w)
  | Unmount app => Returned (unmount app w)
  | AddHistory entry => BackHandler_addHistory entry w
  | RemoveHistory entry => BackHandler_removeHistory entry w
  | Back k =>
      match listeners (log w) !! k with
      | Some options => backHandler options w
      | None => Returned w
      end
  | Use s h a => Returned (set_bindings (bindings w ++ [useBackHandler s h a]) w)
  | AddToHistory k => on_binding k addToHistory w
  | RemoveFromHistory k => on_binding k removeFromHistory w
  | Dispose k => on_binding k onScopeDispose w
  end.

(** An uncaught exception ends the operation that threw, not the program. *)
Definition run (ops : list Op) (w : World) : World :=
  foldl (λ w' op, world_of (exec op w')) w ops.

Definition reachable (w : World) : Prop := ∃ ops, run ops init = w.

End Programs.

(** ** Observations *)

(** [entry.condition()] evaluated in a world, when the object has one. *)
Definition eval_condition (entry : EntryRef) (w : World) : option bool :=
  obj ← heap w !! entry; c ← condition obj; Some (c (store w)).

(** How often the platform registration was called. *)
Definition register_calls (l : list Event) : nat := length (listeners l).



(** The slots agree with the flag [installed]: no-ops when uninstalled, and
    when installed the two closures of the install that is in force, whose
    options are those of the last listener handed to the platform. *)
Definition slots_agree (w : World) : Prop :=
  if installed (BackHandler w) then
    ∃ options,
      addHistory (BackHandler w) = AddHistoryFn options ∧
      removeHistory (BackHandler w) = RemoveHistoryFn options ∧
      last (listeners (log w)) = Some options
  else
    addHistory (BackHandler w) = Noop ∧ removeHistory (BackHandler w) = Noop.

(** Every element of [history] is an object whose [condition] is defined. *)
Definition conditions_defined (w : World) : Prop :=
  ∀ entry, entry ∈ history (BackHandler w) →
    ∃ obj c, heap w !! entry = Some obj ∧ condition obj = Some c.

(** Every [addHistory] of the program passes an entry that is not in
    [history] at the time of the call. *)
Fixpoint adds_fresh (isBrowser : bool) (ops : list Op) (w : World) : bool :=
  match ops with
  | [] => true
  | op :: ops' =>
      match op with
      | AddHistory entry => bool_decide (entry ∉ history (BackHandler w))
      | _ => true
      end && adds_fresh isBrowser ops' (world_of (exec isBrowser op w))
  end.


(** The entry object that [addToHistory] builds. *)
Definition binding_entry (b : UseBackHandler) : BackHandlerHistoryEntry :=
  {| condition := Some (λ st, toValue st (autoHideOnRouteChange b));
     handler := onHide b |}.

(** How the module may change an entry object: the handler stays, and the
    condition stays unless it was missing and got the default. *)
Definition entry_evolves (obj obj' : BackHandlerHistoryEntry) : Prop :=
  handler obj' = handler obj ∧
  (condition obj' = condition obj ∨
   (condition obj = None ∧ condition obj' = Some getTrue)).


(** ** Elementary changes of the world

    Every operation of the module is a sequence of the changes below; an
    invariant of the registry is checked once on each of them.  With
    [fresh_only] set, a push is allowed only for an entry that is not in
    [history]. *)

Definition is_register (ev : Event) : bool :=
  match ev with
  | CallRegisterPlatformBackListener _ _ => true
  | _ => false
  end.

Definition fill_default (obj : BackHandlerHistoryEntry) : BackHandlerHistoryEntry :=
  {| condition := Some getTrue; handler := handler obj |}.

Inductive step (fresh_only : bool) (w : World) : World → Prop :=
  | step_emit ev :
      is_register ev = false → step fresh_only w (emit ev w)
  | step_bindings bs :
      step fresh_only w (set_bindings bs w)
  | step_store s :
      step fresh_only w (set_store s w)
  | step_alloc obj :
      step fresh_only w (new_entry obj w).2
  | step_fill entry obj :
      heap w !! entry = Some obj →
      condition obj = None →
      step fresh_only w (set_heap (<[entry := fill_default obj]> (heap w)) w)
  | step_push entry obj c :
      heap w !! entry = Some obj →
      condition obj = Some c →
      (fresh_only = true → entry ∉ history (BackHandler w)) →
      step fresh_only w (set_history (history (BackHandler w) ++ [entry]) w)
  | step_shrink h :
      h `sublist_of` history (BackHandler w) →
      step fresh_only w (set_history h w)
  | step_install app options :
      installed (BackHandler w) = false →
      step fresh_only w (install true app options w)
  | step_teardown :
      step fresh_only w (teardown w).

(** ** Example programs *)

Definition example_options : BackHandlerOptions :=
  {| onHistoryAdded := Some 10; onHistoryRemoved := Some 11;
     defaultBackAction := 12; registerPlatformBackListener := 13 |}.

Definition always (b : bool) : (nat → bool) → bool := λ _, b.

(** An installed registry holding one entry whose condition is constant. *)
Definition one_entry (b : bool) : list Op :=
  [NewEntry {| condition := Some (always b); handler := 20 |};
   Install 0 example_options; AddHistory 0].

(** An installed registry and one entry object, with no condition, that has
    not been added. *)
Definition installed_with_object : list Op :=
  [NewEntry {| condition := None; handler := 20 |}; Install 0 example_options].

(** The caller passes one entry object to [addHistory] twice. *)
Definition add_twice : list Op :=
  [NewEntry {| condition := None; handler := 20 |};
   Install 0 example_options; AddHistory 0; AddHistory 0].

(** The caller removes the entry before adding it again. *)
Definition add_remove_add : list Op :=
  [NewEntry {| condition := None; handler := 20 |};
   Install 0 example_options; AddHistory 0; RemoveHistory 0; AddHistory 0].

(** A component registers through [useBackHandler]. *)
Definition registered_component : list Op :=
  [Install 0 example_options; Use (Plain true) 30 (Plain true); AddToHistory 0].

(** The closure state of that component after the program. *)
Definition registered_binding : UseBackHandler :=
  {| showing := Plain true; onHide := 30; autoHideOnRouteChange := Plain true;
     historyEntry := Some 0 |}.

(** A component registers through [useBackHandler] above one plain entry,
    and the listener consumes the component's entry. *)
Definition consumed_by_listener : list Op :=
  [NewEntry {| condition := None; handler := 20 |};
   Install 0 example_options; AddHistory 0;
   Use (Plain true) 30 (Plain true); AddToHistory 0; Back 0].

(** The closure state of that component after the program. *)
Definition consumed_binding : UseBackHandler :=
  {| showing := Plain true; onHide := 30; autoHideOnRouteChange := Plain true;
     historyEntry := Some 1 |}.


(** A component whose "is active" value is the cell 1 and whose auto-hide
    flag is the cell 2. *)
Definition component (active : bool) : list Op :=
  [Install 0 example_options; SetRef 1 active; SetRef 2 true;
   Use (Ref 1) 30 (Ref 2); AddToHistory 0].

(** The scenario of the specification: an empty stack, one entry, then an
    entry whose condition fails below one whose condition passes. *)
Definition scenario : list Op :=
  [Install 0 example_options; Back 0;
   NewEntry {| condition := Some (always true); handler := 20 |};
   AddHistory 0; Back 0;
   NewEntry {| condition := Some (always false); handler := 21 |};
   NewEntry {| condition := Some (always true); handler := 22 |};
   AddHistory 1; AddHistory 2; Back 0; Back 0].



(** * Properties *)

(** ** Arrays *)

Lemma indexOf_from_notin (l : list nat) (x : nat) (i : Z) :
  x ∉ l → indexOf_from l x i = (-1)%Z.
Proof.
  revert i. induction l as [|y l IH]; intros i Hx; simpl; [done|].
  apply not_elem_of_cons in Hx as [Hne Hx].
  case_decide; [congruence|]. by apply IH.
Qed.

Lemma indexOf_from_first (pre post : list nat) (x : nat) (i : Z) :
  x ∉ pre → indexOf_from (pre ++ x :: post) x i = (i + Z.of_nat (length pre))%Z.
Proof.
  revert i. induction pre as [|y pre IH]; intros i Hx; simpl.
  - case_decide; [lia|done].
  - apply not_elem_of_cons in Hx as [Hne Hx].
    case_decide; [congruence|]. rewrite IH by done. lia.
Qed.

Lemma indexOf_notin (l : list nat) (x : nat) : x ∉ l → indexOf l x = (-1)%Z.
Proof. apply indexOf_from_notin. Qed.

Lemma indexOf_first (pre post : list nat) (x : nat) :
  x ∉ pre → indexOf (pre ++ x :: post) x = Z.of_nat (length pre).
Proof. intros Hx. unfold indexOf. by rewrite indexOf_from_first. Qed.

Lemma splice_one (pre post : list nat) (x : nat) :
  splice (length pre) 1 (pre ++ x :: post) = pre ++ post.
Proof.
  unfold splice. rewrite take_app_length.
  replace (length pre + 1) with (length pre + 1 + 0) by lia.
  rewrite <- Nat.add_assoc, drop_app_add. done.
Qed.

(** An element of a list has a first occurrence. *)
Lemma first_occurrence (l : list nat) (x : nat) :
  x ∈ l → ∃ pre post, l = pre ++ x :: post ∧ x ∉ pre.
Proof.
  induction l as [|y l IH]; intros Hx; [by apply elem_of_nil in Hx|].
  destruct (decide (y = x)) as [->|Hne].
  - exists [], l. split; [done|]. apply not_elem_of_nil.
  - apply elem_of_cons in Hx as [->|Hx]; [done|].
    destruct (IH Hx) as (pre & post & -> & Hpre).
    exists (y :: pre), post. split; [done|].
    apply not_elem_of_cons. split; [congruence|done].
Qed.

Lemma pop_snoc (rest : list nat) (x : nat) : pop (rest ++ [x]) = rest.
Proof.
  unfold pop. rewrite length_app. simpl.
  replace (length rest + 1 - 1) with (length rest) by lia.
  apply take_app_length.
Qed.

Lemma top_snoc (rest : list nat) (x : nat) :
  (rest ++ [x]) !! (length (rest ++ [x]) - 1) = Some x.
Proof.
  rewrite length_app. simpl.
  replace (length rest + 1 - 1) with (length rest) by lia.
  by rewrite list_lookup_middle.
Qed.

Lemma pop_sublist (l : list nat) : sublist (pop l) l.
Proof. unfold pop. apply sublist_take. Qed.

(** ** The log *)

Lemma log_emit_opt (f : option nat) (ev : nat → Event) (w w' : World) :
  log w' = log w →
  log (emit_opt f ev w')
    = log w ++ match f with Some g => [ev g] | None => [] end.
Proof.
  intros Hlog. destruct f; simpl; rewrite Hlog; [done|].
  by rewrite app_nil_r.
Qed.

(** ** The listener *)

Lemma backHandler_empty (options : BackHandlerOptions) (w : World) :
  history (BackHandler w) = [] →
  backHandler options w =
    Returned (emit (CallDefaultBackAction (defaultBackAction options)) w).
Proof. intros Hh. unfold backHandler. by rewrite Hh. Qed.

(** On a non-empty stack the listener looks at the last element only. *)
Lemma backHandler_top (options : BackHandlerOptions) (w : World)
    (rest : list nat) (entry : nat) (obj : BackHandlerHistoryEntry)
    (c : (nat → bool) → bool) :
  history (BackHandler w) = rest ++ [entry] →
  heap w !! entry = Some obj →
  condition obj = Some c →
  backHandler options w =
    if c (store w) then
      Returned (emit (CallHandler entry (handler obj))
                  (set_history rest (emit (CallCondition entry true) w)))
    else Returned (emit (CallCondition entry false) w).
Proof.
  intros Hh Hobj Hc. unfold backHandler.
  rewrite Hh, top_snoc, length_app. simpl.
  replace (length rest + 1 =? 0) with false
    by (symmetry; apply Nat.eqb_neq; lia).
  simpl. rewrite Hobj, Hc.
  destruct (c (store w)); [|done].
  simpl. by rewrite Hh, pop_snoc.
Qed.

(** C1.  The listener registered at install time: on an empty history it
    calls [defaultBackAction] once and no handler; on a history whose last
    entry has a condition evaluating to true it removes exactly that last
    element, leaves the entries below it as they were and in their order,
    calls that entry's handler once, and does not call [defaultBackAction]. *)
Theorem backHandler_pops_top_or_falls_back
    (options : BackHandlerOptions) (w : World) :
  (history (BackHandler w) = [] →
     ∃ w', backHandler options w = Returned w' ∧
       history (BackHandler w') = [] ∧
       log w' = log w ++ [CallDefaultBackAction (defaultBackAction options)])
  ∧
  (∀ rest entry obj c,
     history (BackHandler w) = rest ++ [entry] →
     heap w !! entry = Some obj →
     condition obj = Some c →
     c (store w) = true →
     ∃ w', backHandler options w = Returned w' ∧
       history (BackHandler w') = rest ∧
       log w' = log w ++ [CallCondition entry true;
                          CallHandler entry (handler obj)]).
Proof.
  split.
  - intros Hh. eexists. split; [by apply backHandler_empty|].
    split; done.
  - intros rest entry obj c Hh Hobj Hc Htrue.
    eexists. split.
    + rewrite (backHandler_top _ _ _ _ _ _ Hh Hobj Hc), Htrue. done.
    + split; [done|]. simpl. by rewrite <- app_assoc.
Qed.

Lemma backHandler_pops_top_or_falls_back_witness :
  (∃ w', backHandler example_options init = Returned w' ∧
     history (BackHandler w') = [] ∧
     log w' = log init ++ [CallDefaultBackAction 12])
  ∧
  (∃ w', backHandler example_options (run true (one_entry true) init)
           = Returned w' ∧
     history (BackHandler w') = [] ∧
     log w' = log (run true (one_entry true) init)
                ++ [CallCondition 0 true; CallHandler 0 20]).
Proof.
  split.
  - destruct (backHandler_pops_top_or_falls_back example_options init)
      as [Hempty _].
    apply Hempty. reflexivity.
  - destruct (backHandler_pops_top_or_falls_back example_options
                (run true (one_entry true) init)) as [_ Htop].
    apply (Htop [] 0 {| condition := Some (always true); handler := 20 |}
             (always true)); vm_compute; reflexivity.
Defined.

(** C2.  When the condition of the last entry evaluates to false the listener
    evaluates that one condition and does nothing else: no handler and no
    default action is called, no other condition is evaluated, and the plugin
    object, with its history, and the heap are what they were. *)
Theorem backHandler_false_condition_absorbs
    (options : BackHandlerOptions) (w : World)
    (rest : list nat) (entry : nat) (obj : BackHandlerHistoryEntry)
    (c : (nat → bool) → bool) :
  history (BackHandler w) = rest ++ [entry] →
  heap w !! entry = Some obj →
  condition obj = Some c →
  c (store w) = false →
  ∃ w', backHandler options w = Returned w' ∧
    BackHandler w' = BackHandler w ∧
    heap w' = heap w ∧
    log w' = log w ++ [CallCondition entry false].
Proof.
  intros Hh Hobj Hc Hfalse. eexists. split.
  - rewrite (backHandler_top _ _ _ _ _ _ Hh Hobj Hc), Hfalse. done.
  - by repeat split.
Qed.

Lemma backHandler_false_condition_absorbs_witness :
  ∃ w', backHandler example_options (run true (one_entry false) init)
          = Returned w' ∧
    BackHandler w' = BackHandler (run true (one_entry false) init) ∧
    heap w' = heap (run true (one_entry false) init) ∧
    log w' = log (run true (one_entry false) init) ++ [CallCondition 0 false].
Proof.
  apply (backHandler_false_condition_absorbs example_options
           (run true (one_entry false) init) [] 0
           {| condition := Some (always false); handler := 20 |}
           (always false)); vm_compute; reflexivity.
Defined.

(** ** Install and teardown *)

Lemma listeners_app (l1 l2 : list Event) :
  listeners (l1 ++ l2) = listeners l1 ++ listeners l2.
Proof. unfold listeners. apply omap_app. Qed.

Lemma install_gated (isBrowser : bool) (app : nat)
    (options : BackHandlerOptions) (w : World) :
  installed (BackHandler w) = true ∨ isBrowser = false →
  install isBrowser app options w = w.
Proof. intros [H | ->]; unfold install; [by rewrite H | by rewrite orb_true_r]. Qed.

Lemma install_first (app : nat) (options : BackHandlerOptions) (w : World) :
  installed (BackHandler w) = false →
  install true app options w =
    emit (CallRegisterPlatformBackListener
            (registerPlatformBackListener options) options)
      (set_cleanups (cleanups w ++ [app])
         (set_BackHandler
            {| installed := true; history := history (BackHandler w);
               addHistory := AddHistoryFn options;
               removeHistory := RemoveHistoryFn options |} w)).
Proof. intros H. unfold install. by rewrite H. Qed.

Lemma teardown_idemp (w : World) : teardown (teardown w) = teardown w.
Proof. done. Qed.

(** Unmounting an application tears the registry down when a cleanup was
    registered on it, and does nothing otherwise. *)
Lemma unmount_teardown (app : nat) (w : World) :
  unmount app w = if decide (app ∈ cleanups w) then teardown w else w.
Proof.
  unfold unmount. generalize (cleanups w) as l. intros l. revert w.
  induction l as [|a l IH]; intros w.
  - done.
  - cbn [foldl]. rewrite IH. destruct (decide (a = app)) as [->|Hne].
    + rewrite teardown_idemp.
      assert (app ∈ app :: l) as Hhere by (apply elem_of_cons; left; done).
      rewrite (decide_True _ _ Hhere).
      by destruct (decide (app ∈ l)).
    + destruct (decide (app ∈ l)) as [Hin|Hnin].
      * assert (app ∈ a :: l) as Hthere by (apply elem_of_cons; right; done).
        by rewrite (decide_True _ _ Hthere).
      * assert (app ∉ a :: l) as Hnot
          by (apply not_elem_of_cons; split; [congruence|done]).
        by rewrite (decide_False _ _ Hnot).
Qed.

(** C3, counterexample: outside a browser two consecutive calls of
    [install] on the module as loaded never call the platform registration. *)
Lemma install_twice_outside_browser :
  register_calls
    (log (install false 0 example_options
            (install false 0 example_options init))) = 0 ∧
  install false 0 example_options (install false 0 example_options init)
    = init.
Proof. split; reflexivity. Qed.

(** C3, as the code has it.  A call of [install] on an installed registry,
    or outside a browser, returns the world it was given: nothing of the
    registry changes and the platform registration is not called, by that
    call or by a second one.  Two consecutive calls on an uninstalled
    registry in a browser call the platform registration once in total: the
    first call does, with its own options, and the second does nothing. *)
Theorem install_idempotent_and_gated (isBrowser : bool) (w : World)
    (app1 app2 : nat) (options1 options2 : BackHandlerOptions) :
  (installed (BackHandler w) = true ∨ isBrowser = false →
     install isBrowser app1 options1 w = w ∧
     install isBrowser app2 options2 (install isBrowser app1 options1 w) = w ∧
     register_calls (log (install isBrowser app2 options2
                            (install isBrowser app1 options1 w)))
       = register_calls (log w))
  ∧
  (installed (BackHandler w) = false → isBrowser = true →
     install isBrowser app2 options2 (install isBrowser app1 options1 w)
       = install isBrowser app1 options1 w ∧
     log (install isBrowser app2 options2 (install isBrowser app1 options1 w))
       = log w ++ [CallRegisterPlatformBackListener
                     (registerPlatformBackListener options1) options1] ∧
     register_calls (log (install isBrowser app2 options2
                            (install isBrowser app1 options1 w)))
       = register_calls (log w) + 1).
Proof.
  split.
  - intros Hgate. rewrite (install_gated _ app1 _ _ Hgate).
    by rewrite (install_gated _ app2 _ _ Hgate).
  - intros Hun ->. rewrite (install_first app1 _ _ Hun).
    rewrite install_gated by (by left). split; [done|]. split.
    + done.
    + unfold register_calls. simpl. rewrite listeners_app, length_app. done.
Qed.

Lemma install_idempotent_and_gated_witness :
  (install false 0 example_options init = init ∧
   install false 1 example_options (install false 0 example_options init)
     = init ∧
   register_calls (log (install false 1 example_options
                          (install false 0 example_options init)))
     = register_calls (log init))
  ∧
  (install true 1 example_options (install true 0 example_options init)
     = install true 0 example_options init ∧
   log (install true 1 example_options (install true 0 example_options init))
     = log init ++ [CallRegisterPlatformBackListener 13 example_options] ∧
   register_calls (log (install true 1 example_options
                          (install true 0 example_options init)))
     = register_calls (log init) + 1).
Proof.
  split.
  - destruct (install_idempotent_and_gated false init 0 1
                example_options example_options) as [Hgated _].
    apply Hgated. right. reflexivity.
  - destruct (install_idempotent_and_gated true init 0 1
                example_options example_options) as [_ Hfirst].
    apply Hfirst; reflexivity.
Defined.

(** ** Operations as sequences of elementary changes *)

Lemma addHistory_impl_unbound (options : BackHandlerOptions) (entry : nat) (w : World) :
  heap w !! entry = None → addHistory_impl options entry w = Threw TypeError w.
Proof. intros H. unfold addHistory_impl. by rewrite H. Qed.

Lemma addHistory_impl_bound (options : BackHandlerOptions) (entry : nat)
    (w : World) (obj : BackHandlerHistoryEntry) :
  heap w !! entry = Some obj →
  addHistory_impl options entry w =
    let w1 := match condition obj with
              | None => set_heap (<[entry := fill_default obj]> (heap w)) w
              | Some _ => w
              end in
    Returned (emit_opt (onHistoryAdded options) (λ f, CallOnHistoryAdded f entry)
                (set_history (history (BackHandler w) ++ [entry]) w1)).
Proof. intros H. unfold addHistory_impl. rewrite H. by destruct (condition obj). Qed.

Lemma removeHistory_impl_absent (options : BackHandlerOptions) (entry : nat) (w : World) :
  entry ∉ history (BackHandler w) → removeHistory_impl options entry w = Returned w.
Proof. intros H. unfold removeHistory_impl. by rewrite indexOf_notin. Qed.

Lemma removeHistory_impl_present (options : BackHandlerOptions) (entry : nat)
    (w : World) (pre post : list nat) :
  history (BackHandler w) = pre ++ entry :: post →
  entry ∉ pre →
  removeHistory_impl options entry w =
    Returned (emit_opt (onHistoryRemoved options) (λ f, CallOnHistoryRemoved f entry)
                (set_history (pre ++ post) w)).
Proof.
  intros Hh Hpre. unfold removeHistory_impl.
  rewrite Hh, indexOf_first by done.
  assert ((Z.of_nat (length pre) >? -1)%Z = true) as ->
    by (rewrite Z.gtb_ltb; apply Z.ltb_lt; lia).
  by rewrite Nat2Z.id, splice_one.
Qed.

Lemma on_binding_world (k : nat)
    (m : UseBackHandler → World → UseBackHandler * Result)
    (w : World) (b : UseBackHandler) :
  bindings w !! k = Some b →
  world_of (on_binding k m w) =
    set_bindings (<[k := (m b w).1]> (bindings (world_of (m b w).2)))
      (world_of (m b w).2).
Proof.
  intros H. unfold on_binding. rewrite H.
  by destruct (m b w) as [b' [w'|err w']].
Qed.

Lemma steps_emit_opt (fo : bool) (f : option nat) (ev : nat → Event) (w : World) :
  (∀ g, is_register (ev g) = false) →
  rtc (step fo) w (emit_opt f ev w).
Proof.
  intros Hev. destruct f as [g|]; simpl; [|done].
  apply rtc_once. by constructor.
Qed.

Lemma call_steps (fo : bool) (fn : HistoryFn) (entry : nat) (w : World) :
  (fo = true → ∀ options, fn = AddHistoryFn options →
     entry ∉ history (BackHandler w)) →
  rtc (step fo) w (world_of (call fn entry w)).
Proof.
  intros Hfresh. destruct fn as [|options|options]; simpl; [done| |].
  - destruct (heap w !! entry) as [obj|] eqn:Hobj;
      [|by rewrite addHistory_impl_unbound].
    rewrite (addHistory_impl_bound _ _ _ _ Hobj). simpl.
    destruct (condition obj) as [c|] eqn:Hc.
    + eapply rtc_l; [eapply step_push; eauto|].
      by apply steps_emit_opt.
    + eapply rtc_l; [by eapply step_fill|].
      eapply rtc_l.
      { eapply (step_push _ _ entry (fill_default obj) getTrue); [|done|eauto].
        apply lookup_insert_eq. }
      by apply steps_emit_opt.
  - destruct (decide (entry ∈ history (BackHandler w))) as [Hin|Hnin];
      [|by rewrite removeHistory_impl_absent].
    destruct (first_occurrence _ _ Hin) as (pre & post & Hh & Hpre).
    rewrite (removeHistory_impl_present _ _ _ _ _ Hh Hpre). simpl.
    eapply rtc_l; [|by apply steps_emit_opt].
    apply step_shrink. rewrite Hh.
    apply sublist_app; [reflexivity|]. apply sublist_cons. reflexivity.
Qed.

Lemma slots_agree_remove (w : World) :
  slots_agree w → ∀ options, removeHistory (BackHandler w) ≠ AddHistoryFn options.
Proof.
  unfold slots_agree. intros H options Heq.
  destruct (installed (BackHandler w)).
  - destruct H as (o & _ & Hr & _). congruence.
  - destruct H as [_ Hr]. congruence.
Qed.

Lemma BackHandler_removeHistory_steps (fo : bool) (entry : nat) (w : World) :
  (fo = true → slots_agree w) →
  rtc (step fo) w (world_of (BackHandler_removeHistory entry w)).
Proof.
  intros Hslots. apply call_steps. intros Hfo options Heq.
  by destruct (slots_agree_remove w (Hslots Hfo) options).
Qed.

Lemma backHandler_steps (fo : bool) (options : BackHandlerOptions) (w : World) :
  rtc (step fo) w (world_of (backHandler options w)).
Proof.
  unfold backHandler. repeat case_match; simpl; try done.
  - match goal with
    | |- rtc _ _ (emit _ (set_history _ ?w1)) => apply rtc_l with w1
    end; [by apply step_emit|].
    eapply rtc_l; [apply step_shrink, pop_sublist|].
    apply rtc_once. by apply step_emit.
  - apply rtc_once. by apply step_emit.
  - apply rtc_once. by apply step_emit.
Qed.

Lemma install_steps (fo isBrowser : bool) (app : nat)
    (options : BackHandlerOptions) (w : World) :
  rtc (step fo) w (install isBrowser app options w).
Proof.
  destruct (installed (BackHandler w)) eqn:Hi;
    [rewrite install_gated by (by left); done|].
  destruct isBrowser; [|rewrite install_gated by (by right); done].
  apply rtc_once. by apply step_install.
Qed.

Lemma unmount_steps (fo : bool) (app : nat) (w : World) :
  rtc (step fo) w (unmount app w).
Proof.
  rewrite unmount_teardown. case_decide; [|done].
  apply rtc_once, step_teardown.
Qed.

Lemma removeFromHistory_world (b : UseBackHandler) (w : World) :
  world_of (removeFromHistory b w).2 =
    match historyEntry b with
    | Some entry => world_of (BackHandler_removeHistory entry w)
    | None => w
    end.
Proof.
  unfold removeFromHistory. destruct (historyEntry b) as [entry|]; [|done].
  by destruct (BackHandler_removeHistory entry w).
Qed.

Lemma removeFromHistory_steps (fo : bool) (b : UseBackHandler) (w : World) :
  (fo = true → slots_agree w) →
  rtc (step fo) w (world_of (removeFromHistory b w).2).
Proof.
  intros Hslots. rewrite removeFromHistory_world.
  destruct (historyEntry b) as [entry|]; [|done].
  by apply BackHandler_removeHistory_steps.
Qed.

Lemma onScopeDispose_steps (fo : bool) (b : UseBackHandler) (w : World) :
  (fo = true → slots_agree w) →
  rtc (step fo) w (world_of (onScopeDispose b w).2).
Proof.
  intros Hslots. unfold onScopeDispose.
  destruct (toValue (store w) (showing b)); [|done].
  by apply removeFromHistory_steps.
Qed.

(** The reference of a new object is not in [history]. *)
Lemma fresh_not_in_history (w : World) :
  conditions_defined w → fresh (dom (heap w)) ∉ history (BackHandler w).
Proof.
  intros Hdef Hin. destruct (Hdef _ Hin) as (o & c & Hobj & _).
  apply (is_fresh (dom (heap w))). apply elem_of_dom. by eexists.
Qed.

Lemma addToHistory_steps (fo : bool) (b : UseBackHandler) (w : World) :
  (fo = true → conditions_defined w) →
  rtc (step fo) w (world_of (addToHistory b w).2).
Proof.
  intros Hdef. unfold addToHistory. simpl.
  eapply rtc_l; [apply step_alloc|].
  apply call_steps. intros Hfo _ _.
  exact (fresh_not_in_history w (Hdef Hfo)).
Qed.

Lemma on_binding_steps (fo : bool) (k : nat)
    (m : UseBackHandler → World → UseBackHandler * Result) (w : World) :
  (∀ b, rtc (step fo) w (world_of (m b w).2)) →
  rtc (step fo) w (world_of (on_binding k m w)).
Proof.
  intros Hm. destruct (bindings w !! k) as [b|] eqn:Hb.
  - rewrite (on_binding_world _ _ _ _ Hb).
    eapply rtc_r; [apply Hm|apply step_bindings].
  - unfold on_binding. by rewrite Hb.
Qed.

(** Every operation of a program is a sequence of elementary changes; with
    [fo] set, under the invariants and for an [addHistory] of an entry that
    is not yet in [history]. *)
Lemma exec_steps (fo isBrowser : bool) (op : Op) (w : World) :
  (fo = true →
     slots_agree w ∧ conditions_defined w ∧
     ∀ entry, op = AddHistory entry → entry ∉ history (BackHandler w)) →
  rtc (step fo) w (world_of (exec isBrowser op w)).
Proof.
  intros Hpre. destruct op; simpl.
  - apply rtc_once, step_alloc.
  - apply rtc_once, step_store.
  - apply install_steps.
  - apply unmount_steps.
  - apply call_steps. intros Hfo _ _. by apply (Hpre Hfo).
  - apply BackHandler_removeHistory_steps. intros Hfo. apply (Hpre Hfo).
  - destruct (listeners (log w) !! k); [apply backHandler_steps|done].
  - apply rtc_once, step_bindings.
  - apply on_binding_steps. intros b. apply addToHistory_steps.
    intros Hfo. apply (Hpre Hfo).
  - apply on_binding_steps. intros b. apply removeFromHistory_steps.
    intros Hfo. apply (Hpre Hfo).
  - apply on_binding_steps. intros b. apply onScopeDispose_steps.
    intros Hfo. apply (Hpre Hfo).
Qed.

(** ** Invariants of the elementary changes *)

Lemma listeners_snoc_other (l : list Event) (ev : Event) :
  is_register ev = false → listeners (l ++ [ev]) = listeners l.
Proof.
  intros H. rewrite listeners_app.
  destruct ev; simpl in *; try done; by rewrite app_nil_r.
Qed.

Lemma step_slots_agree (fo : bool) (w w' : World) :
  step fo w w' → slots_agree w → slots_agree w'.
Proof.
  intros Hstep Hinv. destruct Hstep; unfold slots_agree in *; simpl; try done.
  - by rewrite listeners_snoc_other.
  - rewrite install_first by done. simpl.
    eexists. split; [done|]. split; [done|].
    rewrite listeners_app. simpl. apply last_snoc.
Qed.

Lemma step_conditions_defined (fo : bool) (w w' : World) :
  step fo w w' → conditions_defined w → conditions_defined w'.
Proof.
  intros Hstep Hinv.
  destruct Hstep as [ev Hev|bs|s|obj|e0 obj0 Hobj0 Hc0|e0 obj0 c0 Hobj0 Hc0 _
                    |h Hsub|app options Hun|];
    try exact Hinv; intros entry Hin; simpl in *.
  - destruct (Hinv _ Hin) as (o & c & Ho & Hc). exists o, c. split; [|done].
    rewrite lookup_insert_ne; [done|]. intros <-.
    apply (is_fresh (dom (heap w))), elem_of_dom. by eexists.
  - destruct (decide (e0 = entry)) as [->|Hne].
    + exists (fill_default obj0), getTrue. by rewrite lookup_insert_eq.
    + destruct (Hinv _ Hin) as (o & c & Ho & Hc). exists o, c.
      by rewrite lookup_insert_ne.
  - apply elem_of_app in Hin as [Hin| ->%list_elem_of_singleton]; eauto.
  - apply Hinv. by eapply elem_of_sublist.
  - rewrite install_first in * by done. by apply Hinv.
  - by apply elem_of_nil in Hin.
Qed.

(** An object whose condition is defined is never written again. *)
Lemma step_heap_preserved (fo : bool) (w w' : World)
    (entry : nat) (obj : BackHandlerHistoryEntry) :
  step fo w w' →
  heap w !! entry = Some obj ∧ is_Some (condition obj) →
  heap w' !! entry = Some obj ∧ is_Some (condition obj).
Proof.
  intros Hstep [Hobj Hc]. split; [|done].
  destruct Hstep as [ev Hev|bs|s|obj1|e0 obj0 Hobj0 Hc0|e0 obj0 c0 Hobj0 Hc0 _
                    |h Hsub|app options Hun|]; simpl; try done.
  - rewrite lookup_insert_ne; [done|]. intros <-.
    apply (is_fresh (dom (heap w))), elem_of_dom. by eexists.
  - rewrite lookup_insert_ne; [done|]. intros ->.
    rewrite Hobj in Hobj0. injection Hobj0 as <-.
    rewrite Hc0 in Hc. by destruct Hc.
  - by rewrite install_first.
Qed.

Lemma step_NoDup (w w' : World) :
  step true w w' →
  NoDup (history (BackHandler w)) → NoDup (history (BackHandler w')).
Proof.
  intros Hstep Hnd.
  destruct Hstep as [ev Hev|bs|s|obj1|e0 obj0 Hobj0 Hc0|e0 obj0 c0 Hobj0 Hc0 Hf
                    |h Hsub|app options Hun|]; simpl; try done.
  - apply NoDup_app. split; [done|]. split; [|apply NoDup_singleton].
    intros x Hx ->%list_elem_of_singleton. by apply Hf.
  - by eapply sublist_NoDup.
  - by rewrite install_first.
  - apply NoDup_nil_2.
Qed.

Lemma steps_invariant (fo : bool) (P : World → Prop) :
  (∀ w w', step fo w w' → P w → P w') →
  ∀ w w', rtc (step fo) w w' → P w → P w'.
Proof. intros Hstep w w' Hrtc. induction Hrtc; eauto. Qed.

(** ** Programs *)

Lemma run_app (isBrowser : bool) (ops1 ops2 : list Op) (w : World) :
  run isBrowser (ops1 ++ ops2) w = run isBrowser ops2 (run isBrowser ops1 w).
Proof. apply foldl_app. Qed.

Lemma run_steps (isBrowser : bool) (ops : list Op) (w : World) :
  rtc (step false) w (run isBrowser ops w).
Proof.
  revert w. induction ops as [|op ops IH]; intros w; [done|].
  eapply rtc_trans; [|apply IH]. by apply exec_steps.
Qed.

Lemma run_steps_fresh (isBrowser : bool) (ops : list Op) (w : World) :
  slots_agree w → conditions_defined w →
  adds_fresh isBrowser ops w = true →
  rtc (step true) w (run isBrowser ops w).
Proof.
  revert w. induction ops as [|op ops IH]; intros w Hs Hd Hf; [done|].
  simpl in Hf. apply andb_true_iff in Hf as [Hop Hrest].
  assert (rtc (step true) w (world_of (exec isBrowser op w))) as Hone.
  { apply exec_steps. intros _. split; [done|]. split; [done|].
    intros entry ->. by apply bool_decide_eq_true in Hop. }
  eapply rtc_trans; [exact Hone|]. apply IH; [| |done].
  - by apply (steps_invariant true slots_agree (step_slots_agree true) _ _ Hone).
  - by apply (steps_invariant true conditions_defined
                (step_conditions_defined true) _ _ Hone).
Qed.

Lemma init_slots_agree : slots_agree init.
Proof. by split. Qed.

Lemma init_conditions_defined : conditions_defined init.
Proof. intros entry Hin. by apply elem_of_nil in Hin. Qed.

Lemma reachable_slots_agree (isBrowser : bool) (w : World) :
  reachable isBrowser w → slots_agree w.
Proof.
  intros [ops <-].
  apply (steps_invariant false slots_agree (step_slots_agree false)
           _ _ (run_steps isBrowser ops init)), init_slots_agree.
Qed.

Lemma reachable_conditions_defined (isBrowser : bool) (w : World) :
  reachable isBrowser w → conditions_defined w.
Proof.
  intros [ops <-].
  apply (steps_invariant false conditions_defined (step_conditions_defined false)
           _ _ (run_steps isBrowser ops init)), init_conditions_defined.
Qed.

(** ** The slots *)

Lemma installed_slots (w : World) :
  slots_agree w → installed (BackHandler w) = true →
  ∃ options,
    addHistory (BackHandler w) = AddHistoryFn options ∧
    removeHistory (BackHandler w) = RemoveHistoryFn options ∧
    last (listeners (log w)) = Some options.
Proof. unfold slots_agree. intros H Hi. by rewrite Hi in H. Qed.

Lemma uninstalled_slots (w : World) :
  slots_agree w → installed (BackHandler w) = false →
  addHistory (BackHandler w) = Noop ∧ removeHistory (BackHandler w) = Noop.
Proof. unfold slots_agree. intros H Hi. by rewrite Hi in H. Qed.

(** C4.  While the registry is uninstalled, in the module as loaded, in
    every world a program can reach in which [installed] is false, and right
    after the teardown, [addHistory] and [removeHistory] return the world
    they were given: [history] and [installed] are unchanged and no observer
    is called. *)
Theorem uninstalled_calls_are_noops (isBrowser : bool) (w : World) (entry : nat) :
  (reachable isBrowser w → installed (BackHandler w) = false →
     BackHandler_addHistory entry w = Returned w ∧
     BackHandler_removeHistory entry w = Returned w)
  ∧
  (installed (BackHandler init) = false ∧
   BackHandler_addHistory entry init = Returned init ∧
   BackHandler_removeHistory entry init = Returned init)
  ∧
  (installed (BackHandler (teardown w)) = false ∧
   history (BackHandler (teardown w)) = [] ∧
   BackHandler_addHistory entry (teardown w) = Returned (teardown w) ∧
   BackHandler_removeHistory entry (teardown w) = Returned (teardown w)).
Proof.
  split; [|done].
  intros Hreach Hun.
  destruct (uninstalled_slots w (reachable_slots_agree _ _ Hreach) Hun)
    as [Hadd Hremove].
  unfold BackHandler_addHistory, BackHandler_removeHistory.
  by rewrite Hadd, Hremove.
Qed.

Lemma uninstalled_calls_are_noops_witness :
  BackHandler_addHistory 0 (run true [NewEntry {| condition := None; handler := 20 |}] init)
    = Returned (run true [NewEntry {| condition := None; handler := 20 |}] init) ∧
  BackHandler_removeHistory 0 (run true [NewEntry {| condition := None; handler := 20 |}] init)
    = Returned (run true [NewEntry {| condition := None; handler := 20 |}] init).
Proof.
  destruct (uninstalled_calls_are_noops true
              (run true [NewEntry {| condition := None; handler := 20 |}] init) 0)
    as [Hun _].
  apply Hun; [by eexists|reflexivity].
Defined.

(** ** Adding and removing *)

(** C5.  On an installed registry, [addHistory] of an entry object returns;
    an entry without a condition gets [getTrue], which evaluates to true, and
    one with a condition keeps it; the entry is the new last element of
    [history], above the unchanged earlier ones; and [onHistoryAdded] of the
    install in force, when configured, is called once, with that entry, and
    nothing else is called. *)
Theorem addHistory_appends_and_notifies (isBrowser : bool) (w : World)
    (entry : nat) (obj : BackHandlerHistoryEntry) :
  reachable isBrowser w →
  installed (BackHandler w) = true →
  heap w !! entry = Some obj →
  ∃ options w',
    last (listeners (log w)) = Some options ∧
    BackHandler_addHistory entry w = Returned w' ∧
    heap w' !! entry =
      Some (match condition obj with
            | None => fill_default obj
            | Some _ => obj
            end) ∧
    (condition obj = None → eval_condition entry w' = Some true) ∧
    history (BackHandler w') = history (BackHandler w) ++ [entry] ∧
    last (history (BackHandler w')) = Some entry ∧
    log w' = log w ++ match onHistoryAdded options with
                      | Some f => [CallOnHistoryAdded f entry]
                      | None => []
                      end.
Proof.
  intros Hreach Hin Hobj.
  destruct (installed_slots w (reachable_slots_agree _ _ Hreach) Hin)
    as (options & Hadd & _ & Hlast).
  exists options. eexists. split; [done|]. split.
  { unfold BackHandler_addHistory. rewrite Hadd. simpl.
    by rewrite (addHistory_impl_bound _ _ _ _ Hobj). }
  assert (∀ w0 f, heap (emit_opt f (λ g, CallOnHistoryAdded g entry) w0) = heap w0)
    as Hheap by (by intros w0 [g|]).
  assert (∀ w0 f, store (emit_opt f (λ g, CallOnHistoryAdded g entry) w0) = store w0)
    as Hstore by (by intros w0 [g|]).
  assert (∀ w0 f, BackHandler (emit_opt f (λ g, CallOnHistoryAdded g entry) w0)
                  = BackHandler w0)
    as Hself by (by intros w0 [g|]).
  simpl. split; [|split; [|split; [|split]]].
  - rewrite Hheap. destruct (condition obj); simpl; [done|].
    apply lookup_insert_eq.
  - intros Hnone. unfold eval_condition. rewrite Hheap, Hstore, Hnone. simpl.
    by rewrite lookup_insert_eq.
  - rewrite Hself. by destruct (condition obj).
  - rewrite Hself. destruct (condition obj); simpl; apply last_snoc.
  - apply log_emit_opt. by destruct (condition obj).
Qed.

Lemma addHistory_appends_and_notifies_witness :
  ∃ options w',
    last (listeners (log (run true installed_with_object init))) = Some options ∧
    BackHandler_addHistory 0 (run true installed_with_object init) = Returned w' ∧
    heap w' !! 0 = Some {| condition := Some getTrue; handler := 20 |} ∧
    (condition {| condition := None; handler := 20 |} = None →
       eval_condition 0 w' = Some true) ∧
    history (BackHandler w')
      = history (BackHandler (run true installed_with_object init)) ++ [0] ∧
    last (history (BackHandler w')) = Some 0 ∧
    log w' = log (run true installed_with_object init) ++
      match onHistoryAdded options with
      | Some f => [CallOnHistoryAdded f 0]
      | None => []
      end.
Proof.
  apply (addHistory_appends_and_notifies true
           (run true installed_with_object init) 0
           {| condition := None; handler := 20 |});
    [by eexists|vm_compute; reflexivity..].
Defined.

(** C6.  On an installed registry, [removeHistory] of an entry that is not
    in [history] returns the world it was given; for an entry that is in
    [history] it removes the first occurrence and keeps every other element
    in place and in order, leaves the heap alone, and calls
    [onHistoryRemoved] of the install in force, when configured, once, with
    that entry, and nothing else. *)
Theorem removeHistory_removes_first_occurrence (isBrowser : bool) (w : World)
    (entry : nat) :
  reachable isBrowser w →
  installed (BackHandler w) = true →
  ∃ options,
    last (listeners (log w)) = Some options ∧
    (entry ∉ history (BackHandler w) →
       BackHandler_removeHistory entry w = Returned w) ∧
    (entry ∈ history (BackHandler w) →
       ∃ pre post w',
         history (BackHandler w) = pre ++ entry :: post ∧
         (entry ∉ pre) ∧
         BackHandler_removeHistory entry w = Returned w' ∧
         history (BackHandler w') = pre ++ post ∧
         heap w' = heap w ∧
         log w' = log w ++ match onHistoryRemoved options with
                           | Some f => [CallOnHistoryRemoved f entry]
                           | None => []
                           end).
Proof.
  intros Hreach Hin.
  destruct (installed_slots w (reachable_slots_agree _ _ Hreach) Hin)
    as (options & _ & Hremove & Hlast).
  exists options. split; [done|].
  unfold BackHandler_removeHistory. rewrite Hremove. simpl. split.
  - apply removeHistory_impl_absent.
  - intros Hmem.
    destruct (first_occurrence _ _ Hmem) as (pre & post & Hh & Hpre).
    exists pre, post. eexists. split; [done|]. split; [done|].
    split; [by apply removeHistory_impl_present|].
    destruct (onHistoryRemoved options); repeat split; simpl;
      by rewrite ?app_nil_r.
Qed.

Lemma removeHistory_removes_first_occurrence_witness :
  ∃ options,
    last (listeners (log (run true (one_entry true) init))) = Some options ∧
    (0 ∉ history (BackHandler (run true (one_entry true) init)) →
       BackHandler_removeHistory 0 (run true (one_entry true) init)
         = Returned (run true (one_entry true) init)) ∧
    (0 ∈ history (BackHandler (run true (one_entry true) init)) →
       ∃ pre post w',
         history (BackHandler (run true (one_entry true) init))
           = pre ++ 0 :: post ∧
         (0 ∉ pre) ∧
         BackHandler_removeHistory 0 (run true (one_entry true) init)
           = Returned w' ∧
         history (BackHandler w') = pre ++ post ∧
         heap w' = heap (run true (one_entry true) init) ∧
         log w' = log (run true (one_entry true) init) ++
           match onHistoryRemoved options with
           | Some f => [CallOnHistoryRemoved f 0]
           | None => []
           end).
Proof.
  apply (removeHistory_removes_first_occurrence true
           (run true (one_entry true) init) 0);
    [by eexists|vm_compute; reflexivity].
Defined.

(** C10.  On an installed registry, [addHistory] of an entry object without
    a condition writes [getTrue], the constant-true function, into that very
    object: the heap is the old one with the object at the same reference
    updated, no object is created, and the element appended to [history] is
    the reference that was passed. *)
Theorem addHistory_fills_default_in_place (isBrowser : bool) (w : World)
    (entry : nat) (obj : BackHandlerHistoryEntry) :
  reachable isBrowser w →
  installed (BackHandler w) = true →
  heap w !! entry = Some obj →
  condition obj = None →
  ∃ w',
    BackHandler_addHistory entry w = Returned w' ∧
    heap w' = <[entry := {| condition := Some getTrue; handler := handler obj |}]>
                (heap w) ∧
    heap w' !! entry = Some {| condition := Some getTrue; handler := handler obj |} ∧
    (∀ st, getTrue st = true) ∧
    dom (heap w') = dom (heap w) ∧
    last (history (BackHandler w')) = Some entry.
Proof.
  intros Hreach Hin Hobj Hnone.
  destruct (installed_slots w (reachable_slots_agree _ _ Hreach) Hin)
    as (options & Hadd & _ & _).
  eexists. split.
  { unfold BackHandler_addHistory. rewrite Hadd. simpl.
    by rewrite (addHistory_impl_bound _ _ _ _ Hobj), Hnone. }
  destruct (onHistoryAdded options); simpl.
  all: split; [done|]; split; [apply lookup_insert_eq|]; split; [done|].
  all: split; [|apply last_snoc].
  all: by apply dom_insert_lookup_L.
Qed.

Lemma addHistory_fills_default_in_place_witness :
  ∃ w',
    BackHandler_addHistory 0 (run true installed_with_object init) = Returned w' ∧
    heap w' = <[0 := {| condition := Some getTrue; handler := 20 |}]>
                (heap (run true installed_with_object init)) ∧
    heap w' !! 0 = Some {| condition := Some getTrue; handler := 20 |} ∧
    (∀ st, getTrue st = true) ∧
    dom (heap w') = dom (heap (run true installed_with_object init)) ∧
    last (history (BackHandler w')) = Some 0.
Proof.
  apply (addHistory_fills_default_in_place true
           (run true installed_with_object init) 0
           {| condition := None; handler := 20 |});
    [by eexists|vm_compute; reflexivity..].
Defined.

(** ** Duplicates *)

(** C7, counterexample: after [addHistory] of one object twice, [history]
    holds its reference twice. *)
Lemma history_duplicate_after_add_twice :
  reachable true (run true add_twice init) ∧
  history (BackHandler (run true add_twice init)) = [0; 0] ∧
  ¬ NoDup (history (BackHandler (run true add_twice init))).
Proof.
  split; [by exists add_twice|].
  assert (history (BackHandler (run true add_twice init)) = [0; 0]) as Heq
    by (vm_compute; reflexivity).
  split; [done|]. rewrite Heq. intros Hnd.
  apply NoDup_cons in Hnd as [Hnotin _]. apply Hnotin, list_elem_of_singleton.
  done.
Qed.

(** C7, as the code has it.  When no [addHistory] of the program passes an
    entry that is in [history] at that moment, no reference occurs twice in
    [history]; the entries a component adds through [useBackHandler] are new
    objects and need no such care. *)
Theorem history_NoDup_when_adds_fresh (isBrowser : bool) (ops : list Op) :
  adds_fresh isBrowser ops init = true →
  NoDup (history (BackHandler (run isBrowser ops init))).
Proof.
  intros Hfresh.
  apply (steps_invariant true (λ w, NoDup (history (BackHandler w))) step_NoDup
           init).
  - by apply run_steps_fresh;
      [apply init_slots_agree|apply init_conditions_defined|].
  - apply NoDup_nil_2.
Qed.

Lemma history_NoDup_when_adds_fresh_witness :
  adds_fresh true add_remove_add init = true ∧
  NoDup (history (BackHandler (run true add_remove_add init))).
Proof.
  assert (adds_fresh true add_remove_add init = true) as Hfresh
    by (vm_compute; reflexivity).
  split; [exact Hfresh|].
  exact (history_NoDup_when_adds_fresh true add_remove_add Hfresh).
Defined.

(** ** The composable *)

Lemma run_heap_preserved (isBrowser : bool) (ops : list Op) (w : World)
    (entry : nat) (obj : BackHandlerHistoryEntry) :
  heap w !! entry = Some obj → is_Some (condition obj) →
  heap (run isBrowser ops w) !! entry = Some obj.
Proof.
  intros Hobj Hc.
  apply (steps_invariant false
           (λ w', heap w' !! entry = Some obj ∧ is_Some (condition obj))
           (λ w1 w2 Hs, step_heap_preserved false w1 w2 entry obj Hs)
           w (run isBrowser ops w) (run_steps isBrowser ops w)).
  done.
Qed.

(** What [addToHistory] leaves: the new object, retained by the binding. *)
Lemma addToHistory_retains (b : UseBackHandler) (w : World) :
  historyEntry (addToHistory b w).1 = Some (fresh (dom (heap w))) ∧
  heap (world_of (addToHistory b w).2) !! fresh (dom (heap w)) =
    Some {| condition := Some (λ st, toValue st (autoHideOnRouteChange b));
            handler := onHide b |}.
Proof.
  split; [done|].
  unfold addToHistory. simpl.
  match goal with
  | |- heap (world_of (BackHandler_addHistory ?e ?w1)) !! _ = Some ?o =>
      apply (steps_invariant false
               (λ w', heap w' !! e = Some o ∧ is_Some (condition o))
               (λ wa wb Hs, step_heap_preserved false wa wb e o Hs)
               w1 _ (call_steps false _ e w1 ltac:(done)))
  end.
  split; [apply lookup_insert_eq|by eexists].
Qed.

(** C8.  The entry that [addToHistory] creates has the caller's dismiss
    callback as handler and a condition that reads the auto-hide flag when
    it is evaluated, in whatever store: at any two later moments of any
    program, with no new registration, evaluating the condition gives the
    value the flag has at that moment. *)
Theorem addToHistory_condition_is_live (isBrowser : bool) (b : UseBackHandler)
    (w : World) (ops1 ops2 : list Op) :
  ∃ entry obj c,
    historyEntry (addToHistory b w).1 = Some entry ∧
    heap (world_of (addToHistory b w).2) !! entry = Some obj ∧
    handler obj = onHide b ∧
    condition obj = Some c ∧
    (∀ st, c st = toValue st (autoHideOnRouteChange b)) ∧
    eval_condition entry (run isBrowser ops1 (world_of (addToHistory b w).2))
      = Some (toValue
                (store (run isBrowser ops1 (world_of (addToHistory b w).2)))
                (autoHideOnRouteChange b)) ∧
    eval_condition entry
        (run isBrowser ops2
           (run isBrowser ops1 (world_of (addToHistory b w).2)))
      = Some (toValue
                (store (run isBrowser ops2
                          (run isBrowser ops1 (world_of (addToHistory b w).2))))
                (autoHideOnRouteChange b)).
Proof.
  destruct (addToHistory_retains b w) as [Hret Hobj].
  eexists. eexists. eexists. split; [exact Hret|]. split; [exact Hobj|].
  split; [done|]. split; [done|]. split; [done|]. split.
  - unfold eval_condition.
    by rewrite (run_heap_preserved _ _ _ _ _ Hobj ltac:(by eexists)).
  - rewrite <- run_app. unfold eval_condition.
    by rewrite (run_heap_preserved _ _ _ _ _ Hobj ltac:(by eexists)).
Qed.

(** C9, counterexample: the listener has consumed the component's entry; the
    binding still retains it and "is active" still holds, and disposal
    leaves the one other entry of [history] where it was. *)
Lemma dispose_after_consumed_keeps_length :
  bindings (run true consumed_by_listener init) !! 0 = Some consumed_binding ∧
  historyEntry consumed_binding = Some 1 ∧
  toValue (store (run true consumed_by_listener init))
    (showing consumed_binding) = true ∧
  history (BackHandler (run true consumed_by_listener init)) = [0] ∧
  history (BackHandler
             (world_of (onScopeDispose consumed_binding
                          (run true consumed_by_listener init)).2)) = [0] ∧
  history (BackHandler (run true (consumed_by_listener ++ [Dispose 0]) init))
    = [0].
Proof. repeat split; vm_compute; reflexivity. Qed.

(** C9, as the code has it.  Disposal while "is active" is false changes
    nothing.  Disposal while "is active" is true runs [removeFromHistory]:
    with nothing retained nothing changes; with an entry retained the
    reference is cleared, and the entry's first occurrence is removed from
    [history], whose length drops by one, when the registry is installed and
    the entry is in [history]; when the registry is uninstalled or the entry
    is not in [history], the world is unchanged. *)
Theorem dispose_removes_retained_entry (isBrowser : bool) (b : UseBackHandler)
    (w : World) :
  reachable isBrowser w →
  (toValue (store w) (showing b) = false →
     onScopeDispose b w = (b, Returned w))
  ∧
  (toValue (store w) (showing b) = true →
     onScopeDispose b w = removeFromHistory b w ∧
     (historyEntry b = None → onScopeDispose b w = (b, Returned w)) ∧
     (∀ entry, historyEntry b = Some entry →
        ∃ w',
          onScopeDispose b w = (set_historyEntry None b, Returned w') ∧
          (installed (BackHandler w) = true →
           entry ∈ history (BackHandler w) →
             length (history (BackHandler w')) + 1
               = length (history (BackHandler w)) ∧
             ∃ pre post,
               history (BackHandler w) = pre ++ entry :: post ∧
               (entry ∉ pre) ∧
               history (BackHandler w') = pre ++ post) ∧
          (installed (BackHandler w) = false ∨
           entry ∉ history (BackHandler w) → w' = w))).
Proof.
  intros Hreach. pose proof (reachable_slots_agree _ _ Hreach) as Hslots.
  split; [by intros Hs; unfold onScopeDispose; rewrite Hs|].
  intros Hs. unfold onScopeDispose. rewrite Hs. split; [done|].
  unfold removeFromHistory. split; [by intros ->|].
  intros entry ->. unfold BackHandler_removeHistory.
  destruct (installed (BackHandler w)) eqn:Hin.
  - destruct (installed_slots w Hslots Hin) as (options & _ & Hremove & _).
    rewrite Hremove. simpl.
    destruct (decide (entry ∈ history (BackHandler w))) as [Hmem|Hnot].
    + destruct (first_occurrence _ _ Hmem) as (pre & post & Hh & Hpre).
      rewrite (removeHistory_impl_present _ _ _ _ _ Hh Hpre).
      eexists. split; [done|]. split.
      * intros _ _.
        assert (∀ w0 f, BackHandler
                          (emit_opt f (λ g, CallOnHistoryRemoved g entry) w0)
                        = BackHandler w0) as Hself by (by intros w0 [g|]).
        rewrite Hself. simpl. split.
        -- rewrite Hh, !length_app. simpl. lia.
        -- by exists pre, post.
      * intros [?|?]; done.
    + rewrite (removeHistory_impl_absent _ _ _ Hnot).
      eexists. split; [done|]. split; [done|done].
  - destruct (uninstalled_slots w Hslots Hin) as [_ Hremove].
    rewrite Hremove. simpl.
    eexists. split; [done|]. split; [done|done].
Qed.

Lemma dispose_removes_retained_entry_witness :
  ∃ w',
    onScopeDispose registered_binding (run true registered_component init)
      = (set_historyEntry None registered_binding, Returned w') ∧
    length (history (BackHandler w')) + 1
      = length (history (BackHandler (run true registered_component init))) ∧
    history (BackHandler w') = [].
Proof.
  assert (reachable true (run true registered_component init)) as Hreach
    by (by exists registered_component).
  destruct (dispose_removes_retained_entry true registered_binding _ Hreach)
    as [_ Hactive].
  destruct (Hactive eq_refl) as (_ & _ & Hretained).
  destruct (Hretained 0 eq_refl) as (w' & Heq & Hpresent & _).
  assert (history (BackHandler (run true registered_component init)) = [0])
    as Hh by (vm_compute; reflexivity).
  destruct Hpresent as (Hlen & pre & post & Hdec & Hpre & Hafter).
  { vm_compute; reflexivity. }
  { rewrite Hh. apply list_elem_of_singleton. reflexivity. }
  exists w'. split; [exact Heq|]. split; [exact Hlen|].
  rewrite Hh in Hlen. destruct (history (BackHandler w')); [done|].
  simpl in Hlen. lia.
Defined.

(** ** Invariants of the specification *)

(** X1.  No element of [history] has an undefined condition, so the listener
    returns in every world a program can reach: it never throws. *)
Theorem reachable_backHandler_returns (isBrowser : bool) (w : World)
    (options : BackHandlerOptions) :
  reachable isBrowser w →
  conditions_defined w ∧ ∃ w', backHandler options w = Returned w'.
Proof.
  intros Hreach. pose proof (reachable_conditions_defined _ _ Hreach) as Hdef.
  split; [done|].
  destruct (history (BackHandler w)) as [|x l] eqn:Hh using rev_ind.
  - eexists. by apply backHandler_empty.
  - clear IHl.
    destruct (Hdef x) as (obj & c & Hobj & Hc);
      [rewrite Hh; apply elem_of_app; right; by apply list_elem_of_singleton|].
    rewrite (backHandler_top _ _ _ _ _ _ Hh Hobj Hc).
    destruct (c (store w)); by eexists.
Qed.

Lemma reachable_backHandler_returns_witness :
  conditions_defined (run true (one_entry false) init) ∧
  ∃ w', backHandler example_options (run true (one_entry false) init)
          = Returned w'.
Proof.
  apply (reachable_backHandler_returns true). by exists (one_entry false).
Defined.

(** X2.  Unmounting the application on which the plugin was installed clears
    [history], resets [installed] and puts the no-ops back in the slots. *)
Theorem unmount_tears_down (app : nat) (w : World) :
  app ∈ cleanups w →
  unmount app w = teardown w ∧
  BackHandler (unmount app w) =
    {| installed := false; history := []; addHistory := Noop;
       removeHistory := Noop |} ∧
  heap (unmount app w) = heap w ∧
  log (unmount app w) = log w.
Proof.
  intros Hin. rewrite unmount_teardown. by rewrite decide_True.
Qed.

Lemma unmount_tears_down_witness :
  unmount 0 (run true (one_entry true) init)
    = teardown (run true (one_entry true) init) ∧
  BackHandler (unmount 0 (run true (one_entry true) init)) =
    {| installed := false; history := []; addHistory := Noop;
       removeHistory := Noop |} ∧
  heap (unmount 0 (run true (one_entry true) init))
    = heap (run true (one_entry true) init) ∧
  log (unmount 0 (run true (one_entry true) init))
    = log (run true (one_entry true) init).
Proof.
  apply (unmount_tears_down 0 (run true (one_entry true) init)).
  apply list_elem_of_singleton. reflexivity.
Defined.

(** X3.  A component that adds its entry and then removes it leaves [history] as
    it was and retains nothing, whether or not the registry is installed. *)
Theorem addToHistory_then_removeFromHistory (isBrowser : bool)
    (b : UseBackHandler) (w : World) :
  reachable isBrowser w →
  history (BackHandler
             (world_of (removeFromHistory (addToHistory b w).1
                          (world_of (addToHistory b w).2)).2))
    = history (BackHandler w) ∧
  historyEntry (removeFromHistory (addToHistory b w).1
                  (world_of (addToHistory b w).2)).1 = None.
Proof.
  intros Hreach.
  pose proof (reachable_slots_agree _ _ Hreach) as Hslots.
  pose proof (reachable_conditions_defined _ _ Hreach) as Hdef.
  pose proof (fresh_not_in_history w Hdef) as Hfresh.
  unfold addToHistory, removeFromHistory, BackHandler_addHistory,
    BackHandler_removeHistory. simpl.
  destruct (installed (BackHandler w)) eqn:Hin.
  - destruct (installed_slots w Hslots Hin) as (options & Hadd & Hremove & _).
    rewrite Hadd. simpl.
    erewrite addHistory_impl_bound by apply lookup_insert_eq. simpl.
    assert (∀ w0 f, BackHandler
                      (emit_opt f (λ g, CallOnHistoryAdded g
                                          (fresh (dom (heap w)))) w0)
                    = BackHandler w0) as Hself by (by intros w0 [g|]).
    rewrite Hself. simpl. rewrite Hremove. simpl.
    erewrite (removeHistory_impl_present _ _ _ (history (BackHandler w)) []);
      [|by rewrite Hself|done].
    simpl. split; [|done].
    destruct (onHistoryRemoved options); simpl; by rewrite app_nil_r.
  - destruct (uninstalled_slots w Hslots Hin) as [Hadd Hremove].
    rewrite Hadd. simpl. rewrite Hremove. done.
Qed.

Lemma addToHistory_then_removeFromHistory_witness :
  history (BackHandler
             (world_of (removeFromHistory
                          (addToHistory registered_binding
                             (run true (one_entry true) init)).1
                          (world_of (addToHistory registered_binding
                                       (run true (one_entry true) init)).2)).2))
    = history (BackHandler (run true (one_entry true) init)) ∧
  historyEntry (removeFromHistory
                  (addToHistory registered_binding
                     (run true (one_entry true) init)).1
                  (world_of (addToHistory registered_binding
                               (run true (one_entry true) init)).2)).1 = None.
Proof.
  apply (addToHistory_then_removeFromHistory true). by exists (one_entry true).
Defined.

(** ** Order of consumption *)





(** * Further properties of the code *)

(** ** What a call through a slot leaves alone *)









(** X6.  Removal is idempotent on a stack without duplicates: after
    [removeHistory] of an entry, a second [removeHistory] of it returns the
    world it was given, so [onHistoryRemoved] is not called a second time;
    on an installed registry the entry is then not in [history]. *)
Theorem removeHistory_idempotent (isBrowser : bool) (w : World) (entry : nat) :
  reachable isBrowser w →
  NoDup (history (BackHandler w)) →
  ∃ w1,
    BackHandler_removeHistory entry w = Returned w1 ∧
    BackHandler_removeHistory entry w1 = Returned w1 ∧
    (installed (BackHandler w) = true → entry ∉ history (BackHandler w1)).
Proof.
  intros Hreach Hnd.
  pose proof (reachable_slots_agree _ _ Hreach) as Hslots.
  unfold BackHandler_removeHistory.
  destruct (installed (BackHandler w)) eqn:Hin.
  - destruct (installed_slots w Hslots Hin) as (options & _ & Hremove & _).
    rewrite Hremove. simpl.
    destruct (decide (entry ∈ history (BackHandler w))) as [Hmem|Hnot].
    + destruct (first_occurrence _ _ Hmem) as (pre & post & Hh & Hpre).
      assert (entry ∉ pre ++ post) as Hgone.
      { rewrite Hh in Hnd. apply NoDup_app in Hnd as (_ & _ & Hpost).
        apply NoDup_cons in Hpost as [Hpost _].
        intros [?|?]%elem_of_app; done. }
      rewrite (removeHistory_impl_present _ _ _ _ _ Hh Hpre).
      eexists. split; [done|].
      assert (∀ w0 f, BackHandler
                        (emit_opt f (λ g, CallOnHistoryRemoved g entry) w0)
                      = BackHandler w0) as Hself by (by intros w0 [g|]).
      rewrite Hself. simpl. rewrite Hremove. simpl. split; [|done].
      apply removeHistory_impl_absent. by rewrite Hself.
    + rewrite (removeHistory_impl_absent _ _ _ Hnot).
      eexists. split; [done|]. rewrite Hremove. simpl.
      by rewrite (removeHistory_impl_absent _ _ _ Hnot).
  - destruct (uninstalled_slots w Hslots Hin) as [_ Hremove].
    rewrite Hremove. simpl. eexists. split; [done|].
    by rewrite Hremove.
Qed.

Lemma removeHistory_idempotent_witness :
  ∃ w1,
    BackHandler_removeHistory 0 (run true (one_entry true) init) = Returned w1 ∧
    BackHandler_removeHistory 0 w1 = Returned w1 ∧
    (installed (BackHandler (run true (one_entry true) init)) = true →
     0 ∉ history (BackHandler w1)).
Proof.
  apply (removeHistory_idempotent true (run true (one_entry true) init) 0);
    [by exists (one_entry true)|].
  assert (history (BackHandler (run true (one_entry true) init)) = [0]) as ->
    by (vm_compute; reflexivity).
  apply NoDup_singleton.
Defined.

Lemma log_pop_and_handle (ev1 ev2 : Event) (h : list nat) (w : World) :
  log (emit ev2 (set_history h (emit ev1 w))) = log w ++ [ev1; ev2].
Proof. simpl. by rewrite <- app_assoc. Qed.

(** X7.  Push then press: on an installed registry, an entry that is added
    and whose condition, or the default when it has none, passes is consumed
    by the next invocation of any listener: [history] is what it was before
    the [addHistory], and the external calls are the observer, when
    configured, then the entry's condition and its handler. *)
Theorem addHistory_then_backHandler (isBrowser : bool) (w : World)
    (entry : nat) (obj : BackHandlerHistoryEntry) :
  reachable isBrowser w →
  installed (BackHandler w) = true →
  heap w !! entry = Some obj →
  from_option (λ c, c (store w)) true (condition obj) = true →
  ∃ options w1 w2,
    last (listeners (log w)) = Some options ∧
    BackHandler_addHistory entry w = Returned w1 ∧
    (∀ options', backHandler options' w1 = Returned w2) ∧
    history (BackHandler w2) = history (BackHandler w) ∧
    log w2 = log w ++
      match onHistoryAdded options with
      | Some f => [CallOnHistoryAdded f entry]
      | None => []
      end ++ [CallCondition entry true; CallHandler entry (handler obj)].
Proof.
  intros Hreach Hin Hobj Hpass.
  destruct (installed_slots w (reachable_slots_agree _ _ Hreach) Hin)
    as (options & Hadd & _ & Hlast).
  exists options. eexists. eexists. split; [done|]. split.
  { unfold BackHandler_addHistory. rewrite Hadd. simpl.
    by rewrite (addHistory_impl_bound _ _ _ _ Hobj). }
  simpl.
  set (w0 := match condition obj with
             | None => set_heap (<[entry := fill_default obj]> (heap w)) w
             | Some _ => w
             end).
  set (w1 := emit_opt (onHistoryAdded options) (λ f, CallOnHistoryAdded f entry)
               (set_history (history (BackHandler w) ++ [entry]) w0)).
  assert (history (BackHandler w1) = history (BackHandler w) ++ [entry]) as Hh.
  { unfold w1, w0. by destruct (onHistoryAdded options), (condition obj). }
  assert (store w1 = store w) as Hstore.
  { unfold w1, w0. by destruct (onHistoryAdded options), (condition obj). }
  assert (log w1 = log w ++ match onHistoryAdded options with
                            | Some f => [CallOnHistoryAdded f entry]
                            | None => []
                            end) as Hlog.
  { unfold w1. apply log_emit_opt. unfold w0. by destruct (condition obj). }
  assert (∃ obj1 c, heap w1 !! entry = Some obj1 ∧ condition obj1 = Some c ∧
                    c (store w) = true ∧ handler obj1 = handler obj)
    as (obj1 & c & Hobj1 & Hc & Htrue & Hhandler).
  { unfold w1, w0. destruct (condition obj) as [c|] eqn:Hcond.
    - exists obj, c. by destruct (onHistoryAdded options).
    - exists (fill_default obj), getTrue.
      destruct (onHistoryAdded options); simpl; by rewrite lookup_insert_eq. }
  assert (∀ options', backHandler options' w1 =
            Returned (emit (CallHandler entry (handler obj))
                        (set_history (history (BackHandler w))
                           (emit (CallCondition entry true) w1)))) as Hback.
  { intros options'.
    rewrite (backHandler_top _ _ _ _ _ _ Hh Hobj1 Hc), Hstore, Htrue.
    by rewrite Hhandler. }
  split; [exact Hback|]. split; [done|].
  rewrite log_pop_and_handle. unfold w1, w0 in Hlog. rewrite Hlog.
  by rewrite <- !app_assoc.
Qed.

Lemma addHistory_then_backHandler_witness :
  ∃ options w1 w2,
    last (listeners (log (run true installed_with_object init))) = Some options ∧
    BackHandler_addHistory 0 (run true installed_with_object init) = Returned w1 ∧
    (∀ options', backHandler options' w1 = Returned w2) ∧
    history (BackHandler w2)
      = history (BackHandler (run true installed_with_object init)) ∧
    log w2 = log (run true installed_with_object init) ++
      match onHistoryAdded options with
      | Some f => [CallOnHistoryAdded f 0]
      | None => []
      end ++ [CallCondition 0 true; CallHandler 0 20].
Proof.
  apply (addHistory_then_backHandler true
           (run true installed_with_object init) 0
           {| condition := None; handler := 20 |});
    [by exists installed_with_object|vm_compute; reflexivity..].
Defined.

(** ** Repeated invocations *)







(** ** The composable on an installed registry *)

Lemma emit_opt_frame (f : option nat) (ev : nat → Event) (w : World) :
  BackHandler (emit_opt f ev w) = BackHandler w ∧
  heap (emit_opt f ev w) = heap w ∧
  store (emit_opt f ev w) = store w.
Proof. by destruct f. Qed.

Lemma addToHistory_live (b : UseBackHandler) (w : World)
    (options : BackHandlerOptions) :
  addHistory (BackHandler w) = AddHistoryFn options →
  addToHistory b w =
    (set_historyEntry (Some (fresh (dom (heap w)))) b,
     Returned
       (emit_opt (onHistoryAdded options)
          (λ f, CallOnHistoryAdded f (fresh (dom (heap w))))
          (set_history (history (BackHandler w) ++ [fresh (dom (heap w))])
             (set_heap (<[fresh (dom (heap w)) := binding_entry b]> (heap w))
                w)))).
Proof.
  intros Hadd. unfold addToHistory, BackHandler_addHistory. simpl.
  rewrite Hadd. simpl.
  by erewrite addHistory_impl_bound by apply lookup_insert_eq.
Qed.

(** X9.  A second [addToHistory] of one binding orphans the first entry: on
    an installed registry both entries are in [history], the binding retains
    only the second, [removeFromHistory] removes only the second, and after
    it the binding retains nothing while the first entry is still in
    [history], where no operation of the binding can reach it. *)
Theorem addToHistory_twice_orphans_first (isBrowser : bool)
    (b : UseBackHandler) (w : World) :
  reachable isBrowser w →
  installed (BackHandler w) = true →
  ∃ e1 e2 w1 w2 w3,
    e1 ≠ e2 ∧
    addToHistory b w = (set_historyEntry (Some e1) b, Returned w1) ∧
    addToHistory (set_historyEntry (Some e1) b) w1
      = (set_historyEntry (Some e2) b, Returned w2) ∧
    history (BackHandler w2) = history (BackHandler w) ++ [e1; e2] ∧
    removeFromHistory (set_historyEntry (Some e2) b) w2
      = (set_historyEntry None b, Returned w3) ∧
    history (BackHandler w3) = history (BackHandler w) ++ [e1] ∧
    removeFromHistory (set_historyEntry None b) w3
      = (set_historyEntry None b, Returned w3) ∧
    onScopeDispose (set_historyEntry None b) w3
      = (set_historyEntry None b, Returned w3).
Proof.
  intros Hreach Hin.
  pose proof (reachable_conditions_defined _ _ Hreach) as Hdef.
  destruct (installed_slots w (reachable_slots_agree _ _ Hreach) Hin)
    as (options & Hadd & Hremove & _).
  set (e1 := fresh (dom (heap w))).
  set (w1 := emit_opt (onHistoryAdded options) (λ f, CallOnHistoryAdded f e1)
               (set_history (history (BackHandler w) ++ [e1])
                  (set_heap (<[e1 := binding_entry b]> (heap w)) w))).
  destruct (emit_opt_frame (onHistoryAdded options)
              (λ f, CallOnHistoryAdded f e1)
              (set_history (history (BackHandler w) ++ [e1])
                 (set_heap (<[e1 := binding_entry b]> (heap w)) w)))
    as (Hself1 & Hheap1 & _).
  fold w1 in Hself1, Hheap1. simpl in Hself1, Hheap1.
  set (e2 := fresh (dom (heap w1))).
  set (w2 := emit_opt (onHistoryAdded options) (λ f, CallOnHistoryAdded f e2)
               (set_history (history (BackHandler w1) ++ [e2])
                  (set_heap (<[e2 := binding_entry b]> (heap w1)) w1))).
  destruct (emit_opt_frame (onHistoryAdded options)
              (λ f, CallOnHistoryAdded f e2)
              (set_history (history (BackHandler w1) ++ [e2])
                 (set_heap (<[e2 := binding_entry b]> (heap w1)) w1)))
    as (Hself2 & _ & _).
  fold w2 in Hself2. simpl in Hself2.
  assert (history (BackHandler w2) = (history (BackHandler w) ++ [e1]) ++ [e2])
    as Hh2 by (by rewrite Hself2, Hself1).
  assert (e2 ∉ dom (heap w1)) as Hfresh2 by apply is_fresh.
  assert (e2 ∉ history (BackHandler w) ++ [e1]) as Hnot.
  { intros Hmem. apply Hfresh2. rewrite Hheap1, dom_insert_L.
    apply elem_of_app in Hmem as [Hmem|Hmem%list_elem_of_singleton].
    - destruct (Hdef _ Hmem) as (o & c & Ho & _).
      apply elem_of_union_r, elem_of_dom. by eexists.
    - apply elem_of_union_l, elem_of_singleton. done. }
  assert (e1 ≠ e2) as Hne.
  { intros Heq. apply Hnot, elem_of_app. right.
    by apply list_elem_of_singleton. }
  set (w3 := emit_opt (onHistoryRemoved options)
               (λ f, CallOnHistoryRemoved f e2)
               (set_history ((history (BackHandler w) ++ [e1]) ++ []) w2)).
  exists e1, e2, w1, w2, w3.
  split; [done|]. split; [by apply addToHistory_live|].
  split.
  { rewrite (addToHistory_live _ w1 options); [done|]. by rewrite Hself1. }
  split; [by rewrite Hh2, <- app_assoc|].
  assert (removeHistory (BackHandler w2) = RemoveHistoryFn options) as Hremove2
    by (by rewrite Hself2, Hself1).
  split.
  { unfold removeFromHistory, BackHandler_removeHistory. simpl.
    rewrite Hremove2. simpl.
    by rewrite (removeHistory_impl_present _ _ _ _ [] Hh2 Hnot). }
  destruct (emit_opt_frame (onHistoryRemoved options)
              (λ f, CallOnHistoryRemoved f e2)
              (set_history ((history (BackHandler w) ++ [e1]) ++ []) w2))
    as (Hself3 & _ & _).
  fold w3 in Hself3. simpl in Hself3.
  split; [by rewrite Hself3; simpl; rewrite app_nil_r|].
  split; [done|].
  unfold onScopeDispose. simpl.
  by destruct (toValue (store w3) (showing b)).
Qed.

Lemma addToHistory_twice_orphans_first_witness :
  ∃ e1 e2 w1 w2 w3,
    e1 ≠ e2 ∧
    addToHistory registered_binding (run true (one_entry true) init)
      = (set_historyEntry (Some e1) registered_binding, Returned w1) ∧
    addToHistory (set_historyEntry (Some e1) registered_binding) w1
      = (set_historyEntry (Some e2) registered_binding, Returned w2) ∧
    history (BackHandler w2)
      = history (BackHandler (run true (one_entry true) init)) ++ [e1; e2] ∧
    removeFromHistory (set_historyEntry (Some e2) registered_binding) w2
      = (set_historyEntry None registered_binding, Returned w3) ∧
    history (BackHandler w3)
      = history (BackHandler (run true (one_entry true) init)) ++ [e1] ∧
    removeFromHistory (set_historyEntry None registered_binding) w3
      = (set_historyEntry None registered_binding, Returned w3) ∧
    onScopeDispose (set_historyEntry None registered_binding) w3
      = (set_historyEntry None registered_binding, Returned w3).
Proof.
  apply (addToHistory_twice_orphans_first true registered_binding
           (run true (one_entry true) init));
    [by exists (one_entry true)|vm_compute; reflexivity].
Defined.

(** ** What is never rewritten *)

Lemma step_entry_evolves (fo : bool) (w w' : World) (entry : nat)
    (obj : BackHandlerHistoryEntry) :
  step fo w w' →
  (∃ obj', heap w !! entry = Some obj' ∧ entry_evolves obj obj') →
  ∃ obj', heap w' !! entry = Some obj' ∧ entry_evolves obj obj'.
Proof.
  intros Hstep (obj' & Hobj & Hhandler & Hcond).
  destruct Hstep as [ev Hev|bs|s|obj1|e0 obj0 Hobj0 Hc0|e0 obj0 c0 Hobj0 Hc0 _
                    |h Hsub|app options Hun|]; simpl;
    try (by exists obj').
  - exists obj'. split; [|done].
    rewrite lookup_insert_ne; [done|]. intros <-.
    apply (is_fresh (dom (heap w))), elem_of_dom. by eexists.
  - destruct (decide (e0 = entry)) as [->|Hne].
    + rewrite Hobj in Hobj0. injection Hobj0 as <-.
      exists (fill_default obj'). rewrite lookup_insert_eq.
      split; [done|]. split; [done|]. right. split; [|done].
      destruct Hcond as [<-|[_ Hsome]]; [done|congruence].
    + exists obj'. by rewrite lookup_insert_ne.
  - exists obj'. by rewrite install_first.
Qed.

(** X10.  Whatever a program does, the module never deletes an entry object
    and never rewrites its handler; its condition is left as the caller set
    it, except that a missing one may have become [getTrue]. *)
Theorem run_entry_evolves (isBrowser : bool) (ops : list Op) (w : World)
    (entry : nat) (obj : BackHandlerHistoryEntry) :
  heap w !! entry = Some obj →
  ∃ obj',
    heap (run isBrowser ops w) !! entry = Some obj' ∧
    handler obj' = handler obj ∧
    (condition obj' = condition obj ∨
     (condition obj = None ∧ condition obj' = Some getTrue)).
Proof.
  intros Hobj.
  apply (steps_invariant false
           (λ w', ∃ obj', heap w' !! entry = Some obj' ∧ entry_evolves obj obj')
           (λ w1 w2 Hs, step_entry_evolves false w1 w2 entry obj Hs)
           w (run isBrowser ops w) (run_steps isBrowser ops w)).
  exists obj. split; [done|]. split; [done|]. by left.
Qed.

Lemma run_entry_evolves_witness :
  ∃ obj',
    heap (run true [AddHistory 0; Back 0; Unmount 0]
            (run true installed_with_object init)) !! 0 = Some obj' ∧
    handler obj' = handler {| condition := None; handler := 20 |} ∧
    (condition obj' = condition {| condition := None; handler := 20 |} ∨
     (condition {| condition := None; handler := 20 |} = None ∧
      condition obj' = Some getTrue)).
Proof.
  apply (run_entry_evolves true [AddHistory 0; Back 0; Unmount 0]
           (run true installed_with_object init) 0
           {| condition := None; handler := 20 |}).
  vm_compute; reflexivity.
Defined.

(** ** Registrations *)

Lemma step_registrations (fo : bool) (w w' : World) :
  step fo w w' →
  listeners (log w) `prefix_of` listeners (log w') ∧
  cleanups w `prefix_of` cleanups w' ∧
  (length (cleanups w) = register_calls (log w) →
   length (cleanups w') = register_calls (log w')).
Proof.
  intros Hstep.
  destruct Hstep as [ev Hev|bs|s|obj1|e0 obj0 Hobj0 Hc0|e0 obj0 c0 Hobj0 Hc0 _
                    |h Hsub|app options Hun|]; simpl; try done.
  - unfold register_calls. by rewrite listeners_snoc_other.
  - rewrite install_first by done. simpl.
    unfold register_calls. rewrite listeners_app, !length_app. simpl.
    split; [by apply prefix_app_r|]. split; [by apply prefix_app_r|].
    intros ->. done.
Qed.

(** X11.  Registrations are only ever added, by [install]: along any
    program the listeners handed to the platform and the cleanups handed to
    the applications only grow at the end, no teardown takes a listener
    back, and from the module as loaded there are always as many cleanups
    as listeners, one of each for every install that went through. *)
Theorem registrations_only_grow (isBrowser : bool) (ops1 ops2 : list Op) :
  listeners (log (run isBrowser ops1 init))
    `prefix_of` listeners (log (run isBrowser ops2 (run isBrowser ops1 init))) ∧
  cleanups (run isBrowser ops1 init)
    `prefix_of` cleanups (run isBrowser ops2 (run isBrowser ops1 init)) ∧
  length (cleanups (run isBrowser ops1 init))
    = register_calls (log (run isBrowser ops1 init)).
Proof.
  assert (∀ w w', rtc (step false) w w' →
            listeners (log w) `prefix_of` listeners (log w') ∧
            cleanups w `prefix_of` cleanups w' ∧
            (length (cleanups w) = register_calls (log w) →
             length (cleanups w') = register_calls (log w'))) as Hsteps.
  { intros w w' Hrtc. induction Hrtc as [w|w wm w' Hstep _ IH]; [done|].
    destruct (step_registrations _ _ _ Hstep) as (Hl & Hc & Hn).
    destruct IH as (Hl' & Hc' & Hn').
    split; [by etrans|]. split; [by etrans|]. auto. }
  destruct (Hsteps _ _ (run_steps isBrowser ops2 (run isBrowser ops1 init)))
    as (Hl & Hc & _).
  destruct (Hsteps _ _ (run_steps isBrowser ops1 init)) as (_ & _ & Hn).
  split; [done|]. split; [done|]. by apply Hn.
Qed.

(** ** Removal through the binding *)

Lemma BackHandler_removeHistory_returns (entry : nat) (w : World) :
  slots_agree w →
  ∃ w1, BackHandler_removeHistory entry w = Returned w1 ∧ store w1 = store w.
Proof.
  intros Hslots. unfold BackHandler_removeHistory.
  destruct (removeHistory (BackHandler w)) as [|options|options] eqn:Hslot.
  - by exists w.
  - by destruct (slots_agree_remove w Hslots options).
  - simpl. unfold removeHistory_impl.
    destruct (indexOf (history (BackHandler w)) entry >? -1)%Z;
      [|by exists w].
    eexists. split; [done|]. by destruct (onHistoryRemoved options).
Qed.

(** X12.  Removal through the binding never throws and is idempotent:
    [removeFromHistory] returns with nothing retained, and calling it again
    changes neither the binding nor the world; the same holds for the
    disposal callback, so an explicit removal followed by the automatic one
    removes once. *)
Theorem binding_removal_idempotent (isBrowser : bool) (b : UseBackHandler)
    (w : World) :
  reachable isBrowser w →
  (∃ b1 w1,
     removeFromHistory b w = (b1, Returned w1) ∧
     historyEntry b1 = None ∧
     removeFromHistory b1 w1 = (b1, Returned w1) ∧
     onScopeDispose b1 w1 = (b1, Returned w1))
  ∧
  (∃ b2 w2,
     onScopeDispose b w = (b2, Returned w2) ∧
     onScopeDispose b2 w2 = (b2, Returned w2)).
Proof.
  intros Hreach. pose proof (reachable_slots_agree _ _ Hreach) as Hslots.
  assert (∃ b1 w1,
            removeFromHistory b w = (b1, Returned w1) ∧
            historyEntry b1 = None ∧ showing b1 = showing b ∧
            store w1 = store w) as (b1 & w1 & Hrem & Hnone & Hshow & Hstore).
  { unfold removeFromHistory. destruct (historyEntry b) as [entry|] eqn:Hret.
    - destruct (BackHandler_removeHistory_returns entry w Hslots)
        as (w1 & -> & Hstore).
      by exists (set_historyEntry None b), w1.
    - by exists b, w. }
  assert (removeFromHistory b1 w1 = (b1, Returned w1)) as Hagain
    by (unfold removeFromHistory; by rewrite Hnone).
  assert (onScopeDispose b1 w1 = (b1, Returned w1)) as Hdispose.
  { unfold onScopeDispose. by destruct (toValue (store w1) (showing b1)). }
  split; [by exists b1, w1|].
  unfold onScopeDispose at 1.
  destruct (toValue (store w) (showing b)) eqn:Hactive.
  - by exists b1, w1.
  - exists b, w. split; [done|]. unfold onScopeDispose. by rewrite Hactive.
Qed.

Lemma binding_removal_idempotent_witness :
  (∃ b1 w1,
     removeFromHistory registered_binding (run true registered_component init)
       = (b1, Returned w1) ∧
     historyEntry b1 = None ∧
     removeFromHistory b1 w1 = (b1, Returned w1) ∧
     onScopeDispose b1 w1 = (b1, Returned w1))
  ∧
  (∃ b2 w2,
     onScopeDispose registered_binding (run true registered_component init)
       = (b2, Returned w2) ∧
     onScopeDispose b2 w2 = (b2, Returned w2)).
Proof.
  apply (binding_removal_idempotent true registered_binding
           (run true registered_component init)).
  by exists registered_component.
Defined.

(** ** The life cycle *)

(** X13.  After the application is unmounted the plugin can be installed
    again: the second install goes through with an empty [history] and the
    closures of its own options, the heap is untouched, and the listener of
    the first install is still with the platform, before the new one. *)
Theorem reinstall_after_unmount (w : World) (app app2 : nat)
    (options2 : BackHandlerOptions) :
  app ∈ cleanups w →
  BackHandler (install true app2 options2 (unmount app w)) =
    {| installed := true; history := [];
       addHistory := AddHistoryFn options2;
       removeHistory := RemoveHistoryFn options2 |} ∧
  listeners (log (install true app2 options2 (unmount app w)))
    = listeners (log w) ++ [options2] ∧
  cleanups (install true app2 options2 (unmount app w))
    = cleanups w ++ [app2] ∧
  heap (install true app2 options2 (unmount app w)) = heap w.
Proof.
  intros Hin. rewrite unmount_teardown, decide_True by done.
  rewrite install_first by done. simpl.
  split; [done|]. split; [|done]. by rewrite listeners_app.
Qed.

Lemma reinstall_after_unmount_witness :
  BackHandler (install true 1 example_options
                 (unmount 0 (run true (one_entry true) init))) =
    {| installed := true; history := [];
       addHistory := AddHistoryFn example_options;
       removeHistory := RemoveHistoryFn example_options |} ∧
  listeners (log (install true 1 example_options
                    (unmount 0 (run true (one_entry true) init))))
    = listeners (log (run true (one_entry true) init)) ++ [example_options] ∧
  cleanups (install true 1 example_options
              (unmount 0 (run true (one_entry true) init)))
    = cleanups (run true (one_entry true) init) ++ [1] ∧
  heap (install true 1 example_options
          (unmount 0 (run true (one_entry true) init)))
    = heap (run true (one_entry true) init).
Proof.
  apply (reinstall_after_unmount (run true (one_entry true) init) 0 1
           example_options).
  apply list_elem_of_singleton. reflexivity.
Defined.



(** X15.  The teardown replaces the slots but cannot take back a closure
    that a caller read from the slot while the registry was installed:
    called after the teardown, that closure still appends its entry to
    [history] and calls the observer of the old install, although
    [installed] is false, and [BackHandler.removeHistory], a no-op again,
    does not remove the entry. *)
Theorem stale_addHistory_after_teardown (options : BackHandlerOptions)
    (w : World) (entry : nat) (obj : BackHandlerHistoryEntry) :
  heap w !! entry = Some obj →
  ∃ w',
    call (AddHistoryFn options) entry (teardown w) = Returned w' ∧
    installed (BackHandler w') = false ∧
    history (BackHandler w') = [entry] ∧
    log w' = log w ++ match onHistoryAdded options with
                      | Some f => [CallOnHistoryAdded f entry]
                      | None => []
                      end ∧
    BackHandler_removeHistory entry w' = Returned w'.
Proof.
  intros Hobj. simpl.
  rewrite (addHistory_impl_bound _ _ (teardown w) obj) by exact Hobj.
  destruct (condition obj), (onHistoryAdded options); eexists;
    (split; [done|]); simpl; repeat split; try done; by rewrite ?app_nil_r.
Qed.

Lemma stale_addHistory_after_teardown_witness :
  ∃ w',
    call (AddHistoryFn example_options) 0
      (teardown (run true (one_entry true) init)) = Returned w' ∧
    installed (BackHandler w') = false ∧
    history (BackHandler w') = [0] ∧
    log w' = log (run true (one_entry true) init) ++
               match onHistoryAdded example_options with
               | Some f => [CallOnHistoryAdded f 0]
               | None => []
               end ∧
    BackHandler_removeHistory 0 w' = Returned w'.
Proof.
  apply (stale_addHistory_after_teardown example_options
           (run true (one_entry true) init) 0
           {| condition := Some (always true); handler := 20 |}).
  vm_compute; reflexivity.
Defined.

(** ** The observers *)








(** ** The tests of the repository, run on the embedding *)

(** "should not install twice" *)
Example test_not_install_twice :
  installed (BackHandler (run true [Install 0 example_options] init)) = true ∧
  register_calls
    (log (run true [Install 0 example_options; Install 0 example_options] init))
    = 1.
Proof. split; vm_compute; reflexivity. Qed.

(** "should call fallback when history is empty" *)
Example test_fallback_when_empty :
  log (run true [Install 0 example_options; Back 0] init) =
    [CallRegisterPlatformBackListener 13 example_options;
     CallDefaultBackAction 12].
Proof. vm_compute; reflexivity. Qed.

(** "should call top history entry if condition passes" *)
Example test_top_entry_condition_passes :
  length (history (BackHandler (run true (one_entry true) init))) = 1 ∧
  log (run true (one_entry true ++ [Back 0]) init)
    = [CallRegisterPlatformBackListener 13 example_options;
       CallOnHistoryAdded 10 0; CallCondition 0 true; CallHandler 0 20] ∧
  length (history (BackHandler (run true (one_entry true ++ [Back 0]) init))) = 0.
Proof. repeat split; vm_compute; reflexivity. Qed.

(** "should not pop entry if condition fails" *)
Example test_condition_fails :
  log (run true (one_entry false ++ [Back 0]) init)
    = [CallRegisterPlatformBackListener 13 example_options;
       CallOnHistoryAdded 10 0; CallCondition 0 false] ∧
  length (history (BackHandler (run true (one_entry false ++ [Back 0]) init))) = 1.
Proof. repeat split; vm_compute; reflexivity. Qed.

(** "calls onHistoryAdded when entry is added" and "calls onHistoryRemoved
    when entry is removed" *)
Example test_observers :
  log (run true (one_entry true) init) =
    [CallRegisterPlatformBackListener 13 example_options;
     CallOnHistoryAdded 10 0] ∧
  history (BackHandler (run true (one_entry true) init)) = [0] ∧
  log (run true (one_entry true ++ [RemoveHistory 0]) init) =
    [CallRegisterPlatformBackListener 13 example_options;
     CallOnHistoryAdded 10 0; CallOnHistoryRemoved 11 0] ∧
  history (BackHandler (run true (one_entry true ++ [RemoveHistory 0]) init)) = [].
Proof. repeat split; vm_compute; reflexivity. Qed.

(** "adds and removes history entry correctly" *)
Example test_adds_and_removes :
  history (BackHandler (run true (component true) init)) = [0] ∧
  eval_condition 0 (run true (component true) init) = Some true ∧
  handler <$> heap (run true (component true) init) !! 0 = Some 30 ∧
  history (BackHandler (run true (component true ++ [RemoveFromHistory 0]) init))
    = [].
Proof. repeat split; vm_compute; reflexivity. Qed.

(** "condition is reactive" *)
Example test_condition_is_reactive :
  eval_condition 0 (run true (component true) init) = Some true ∧
  eval_condition 0 (run true (component true ++ [SetRef 2 false]) init)
    = Some false.
Proof. split; vm_compute; reflexivity. Qed.

(** "does not auto-remove on dispose if not showing" and "auto-removes on
    dispose if showing is true" *)
Example test_dispose :
  history (BackHandler (run true (component false ++ [Dispose 0]) init)) = [0] ∧
  history (BackHandler (run true (component true ++ [Dispose 0]) init)) = [].
Proof. split; vm_compute; reflexivity. Qed.

Example test_scenario :
  history (BackHandler (run true scenario init)) = [1] ∧
  log (run true scenario init) =
    [CallRegisterPlatformBackListener 13 example_options;
     CallDefaultBackAction 12;
     CallOnHistoryAdded 10 0; CallCondition 0 true; CallHandler 0 20;
     CallOnHistoryAdded 10 1; CallOnHistoryAdded 10 2;
     CallCondition 2 true; CallHandler 2 22;
     CallCondition 1 false].
Proof. split; vm_compute; reflexivity. Qed.

